(** * ServerMain: the main program of a RAMCloud storage server

    A shallow embedding of [main] of [src/ServerMain.cc] together with the
    collaborators it calls, and the properties of the start-up sequence:
    option binding, role resolution, transport initialisation, read-back of
    the listening locator, memory sizing and the hand-over to the server. *)

From Stdlib Require Import Bool List String Ascii ZArith NArith Lia.
From Stdlib Require Import DecimalString DecimalN.
Import ListNotations.

Local Open Scope string_scope.
Local Open Scope list_scope.

(** ** Data model *)

Inductive LogLevel := ERROR | WARNING | NOTICE | DEBUG.

(** The service kinds named in the initializer lists of [main]. *)
Inductive ServiceType :=
  | MASTER_SERVICE
  | BACKUP_SERVICE
  | MEMBERSHIP_SERVICE
  | PING_SERVICE.

(** The replica placement strategies.  The enumeration is declared outside
    [ServerMain.cc]; its members and their numbers are taken from the help
    text of the [backupStrategy] option (lines 53-54): "0 random refine min,
    1 random refine avg, 2 even distribution, 3 uniform random", in
    agreement with the range 0-3 the spec gives for the selector. *)
Inductive BackupStrategy :=
  | RANDOM_REFINE_MIN
  | RANDOM_REFINE_AVG
  | EVEN_DISTRIBUTION
  | UNIFORM_RANDOM.

Definition strategy_value (s : BackupStrategy) : Z :=
  match s with
  | RANDOM_REFINE_MIN => 0
  | RANDOM_REFINE_AVG => 1
  | EVEN_DISTRIBUTION => 2
  | UNIFORM_RANDOM => 3
  end.

Definition strategy_help : string :=
  "0 random refine min, 1 random refine avg, 2 even distribution, 3 uniform random".

Record BackupConfig := mkBackupConfig {
  inMemory : bool;
  strategy : Z;
  file : string;
  numSegmentFrames : N
}.

Record MasterConfig := mkMasterConfig {
  disableLogCleaner : bool;
  numReplicas : N;
  logBytes : N;
  hashTableBytes : N
}.

Record ServerConfig := mkServerConfig {
  services : list ServiceType;
  localLocator : string;
  coordinatorLocator : string;
  clusterName : string;
  detectFailures : bool;
  master : MasterConfig;
  backup : BackupConfig
}.

Definition set_services (v : list ServiceType) (c : ServerConfig) :=
  mkServerConfig v (localLocator c) (coordinatorLocator c) (clusterName c)
                 (detectFailures c) (master c) (backup c).
Definition set_localLocator (v : string) (c : ServerConfig) :=
  mkServerConfig (services c) v (coordinatorLocator c) (clusterName c)
                 (detectFailures c) (master c) (backup c).
Definition set_coordinatorLocator (v : string) (c : ServerConfig) :=
  mkServerConfig (services c) (localLocator c) v (clusterName c)
                 (detectFailures c) (master c) (backup c).
Definition set_clusterName (v : string) (c : ServerConfig) :=
  mkServerConfig (services c) (localLocator c) (coordinatorLocator c) v
                 (detectFailures c) (master c) (backup c).
Definition set_detectFailures (v : bool) (c : ServerConfig) :=
  mkServerConfig (services c) (localLocator c) (coordinatorLocator c)
                 (clusterName c) v (master c) (backup c).
Definition set_master (v : MasterConfig) (c : ServerConfig) :=
  mkServerConfig (services c) (localLocator c) (coordinatorLocator c)
                 (clusterName c) (detectFailures c) v (backup c).
Definition set_backup (v : BackupConfig) (c : ServerConfig) :=
  mkServerConfig (services c) (localLocator c) (coordinatorLocator c)
                 (clusterName c) (detectFailures c) (master c) v.

Definition set_inMemory (v : bool) (b : BackupConfig) :=
  mkBackupConfig v (strategy b) (file b) (numSegmentFrames b).
Definition set_strategy (v : Z) (b : BackupConfig) :=
  mkBackupConfig (inMemory b) v (file b) (numSegmentFrames b).
Definition set_file (v : string) (b : BackupConfig) :=
  mkBackupConfig (inMemory b) (strategy b) v (numSegmentFrames b).
Definition set_numSegmentFrames (v : N) (b : BackupConfig) :=
  mkBackupConfig (inMemory b) (strategy b) (file b) v.

Definition set_disableLogCleaner (v : bool) (m : MasterConfig) :=
  mkMasterConfig v (numReplicas m) (logBytes m) (hashTableBytes m).
Definition set_numReplicas (v : N) (m : MasterConfig) :=
  mkMasterConfig (disableLogCleaner m) v (logBytes m) (hashTableBytes m).
Definition set_sizes (log hash : N) (m : MasterConfig) :=
  mkMasterConfig (disableLogCleaner m) (numReplicas m) log hash.

(** What a [throw] carries, by the [catch] clause of [main] that takes it:
    [const Exception&], [const std::exception&] and [...]. *)
Inductive Thrown :=
  | ThrowException (what : string)
  | ThrowStdException (what : string)
  | ThrowOther.

(** How a statement ends when it does not complete: by a [throw], or not
    at all. *)
Inductive Abrupt :=
  | Raised (t : Thrown)
  | NoReturn.

Coercion Raised : Thrown >-> Abrupt.

(** The expected type of a sum and of a pair is known before its
    components, so that a [Thrown] is read as the [Abrupt] end it is. *)
Arguments inl {A B} & _.
Arguments pair {A B} & _ _.

(** What becomes of [server.run()], "Never returns except for
    exceptions": it runs for ever, throws, or returns after all. *)
Inductive ServerOutcome :=
  | RunsForEver
  | ServerThrows (t : Thrown)
  | ServerReturns.

(** The variables [main] declares before the option table, which the
    options store into. *)
Record Locals := mkLocals {
  config : ServerConfig;
  masterTotalMemory : string;
  hashTableMemory : string;
  masterOnly : bool;
  backupOnly : bool
}.

Definition on_config (f : ServerConfig -> ServerConfig) (l : Locals) :=
  mkLocals (f (config l)) (masterTotalMemory l) (hashTableMemory l)
           (masterOnly l) (backupOnly l).
Definition on_backup (f : BackupConfig -> BackupConfig) :=
  on_config (fun c => set_backup (f (backup c)) c).
Definition on_master (f : MasterConfig -> MasterConfig) :=
  on_config (fun c => set_master (f (master c)) c).
Definition set_masterTotalMemory (v : string) (l : Locals) :=
  mkLocals (config l) v (hashTableMemory l) (masterOnly l) (backupOnly l).
Definition set_hashTableMemory (v : string) (l : Locals) :=
  mkLocals (config l) (masterTotalMemory l) v (masterOnly l) (backupOnly l).
Definition set_masterOnly (v : bool) (l : Locals) :=
  mkLocals (config l) (masterTotalMemory l) (hashTableMemory l) v (backupOnly l).
Definition set_backupOnly (v : bool) (l : Locals) :=
  mkLocals (config l) (masterTotalMemory l) (hashTableMemory l) (masterOnly l) v.

(** ** The option table *)

(** A typed value, as the option parser hands it over after coercion. *)
Inductive OptValue :=
  | VBool (b : bool)
  | VInt (z : Z)
  | VUint32 (n : N)
  | VString (s : string).

(** One entry of [serverOptions.add_options()]: the name as written
    ("long,short"), where the value is stored, and the default if any. *)
Record OptionDescription := mkOption {
  optName : string;
  optStore : OptValue -> Locals -> option Locals;
  optDefault : option OptValue
}.

Definition store_bool (f : bool -> Locals -> Locals) (v : OptValue) (l : Locals) :=
  match v with VBool b => Some (f b l) | _ => None end.
Definition store_int (f : Z -> Locals -> Locals) (v : OptValue) (l : Locals) :=
  match v with VInt z => Some (f z l) | _ => None end.
Definition store_uint32 (f : N -> Locals -> Locals) (v : OptValue) (l : Locals) :=
  match v with VUint32 n => Some (f n l) | _ => None end.
Definition store_string (f : string -> Locals -> Locals) (v : OptValue) (l : Locals) :=
  match v with VString s => Some (f s l) | _ => None end.

(** [ProgramOptions::bool_switch(&x)]: a flag without argument, [false]
    when absent. *)
Definition bool_switch (name : string) (f : bool -> Locals -> Locals) :=
  mkOption name (store_bool f) (Some (VBool false)).

Definition serverOptions : list OptionDescription :=
  [ bool_switch "backupInMemory,m" (fun b => on_backup (set_inMemory b));
    bool_switch "backupOnly,B" set_backupOnly;
    mkOption "backupStrategy"
             (store_int (fun z => on_backup (set_strategy z)))
             (Some (VInt (strategy_value RANDOM_REFINE_AVG)));
    bool_switch "disableLogCleaner,d" (fun b => on_master (set_disableLogCleaner b));
    mkOption "file,f"
             (store_string (fun s => on_backup (set_file s)))
             (Some (VString "/var/tmp/backup.log"));
    mkOption "hashTableMemory,h"
             (store_string set_hashTableMemory)
             (Some (VString "10%"));
    bool_switch "masterOnly,M" set_masterOnly;
    mkOption "totalMasterMemory,t"
             (store_string set_masterTotalMemory)
             (Some (VString "10%"));
    mkOption "replicas,r"
             (store_uint32 (fun n => on_master (set_numReplicas n)))
             (Some (VUint32 0));
    mkOption "segmentFrames"
             (store_uint32 (fun n => on_backup (set_numSegmentFrames n)))
             (Some (VUint32 512));
    mkOption "detectFailures"
             (store_bool (fun b => on_config (set_detectFailures b)))
             (Some (VBool true));
    mkOption "clusterName"
             (store_string (fun s => on_config (set_clusterName s)))
             None ].

(** The long name of an option: its name up to the comma. *)
Fixpoint longName (s : string) : string :=
  match s with
  | EmptyString => EmptyString
  | String c rest => if Ascii.eqb c "," then EmptyString else String c (longName rest)
  end.

(** The values found on the command line, by long option name. *)
Definition VariablesMap := list (string * OptValue).

Fixpoint vm_lookup (name : string) (vm : VariablesMap) : option OptValue :=
  match vm with
  | [] => None
  | (k, v) :: rest => if String.eqb k name then Some v else vm_lookup name rest
  end.

(** Storing one option: the value given on the command line, else the
    default, else the variable is left as it was. *)
Definition notify (vm : VariablesMap) (o : OptionDescription) (l : Locals)
  : option Locals :=
  match vm_lookup (longName (optName o)) vm with
  | Some v => optStore o v l
  | None =>
      match optDefault o with
      | Some d => optStore o d l
      | None => Some l
      end
  end.

Fixpoint notifyAll (vm : VariablesMap) (opts : list OptionDescription) (l : Locals)
  : option Locals :=
  match opts with
  | [] => Some l
  | o :: rest =>
      match notify vm o l with
      | Some l' => notifyAll vm rest l'
      | None => None
      end
  end.

(** The options of the shared option surface that [main] reads through
    [optionParser.options]. *)
Record CommonOptions := mkCommonOptions {
  getLocalLocator : string;
  getCoordinatorLocator : string;
  getTransportTimeout : N
}.

Record CommandLine := mkCommandLine {
  variables : VariablesMap;
  options : CommonOptions
}.

(** ** Observable events *)

Inductive LogArg :=
  | ArgStr (s : string)
  | ArgUint (n : N).

Inductive Event :=
  | EvLog (level : LogLevel) (format : string) (args : list LogArg)
  | EvInfRcSetName (name : string)
  | EvSetTimeout (timeout : N)
  | EvInitialize (locator : string)
  | EvSetLogAndHashTableSize (masterTotalMemory hashTableMemory : string)
  | EvServerRun (config : ServerConfig).

(** ** Collaborators

    Everything [main] calls that lives outside [ServerMain.cc]. *)
Class Collaborators := {
  (** [#if INFINIBAND] *)
  INFINIBAND : bool;
  (** The transport manager of the [Context]. *)
  TransportManager : Type;
  newTransportManager : TransportManager;
  tm_setTimeout : N -> TransportManager -> TransportManager;
  tm_initialize : string -> TransportManager -> TransportManager * option Thrown;
  tm_getListeningLocatorsString : TransportManager -> string;
  (** [ServerConfig::forExecution()] *)
  forExecution : ServerConfig;
  (** The command line as the option parser reads it, or what it throws. *)
  parseCommandLine : list string -> Thrown + CommandLine;
  (** The two byte counts [ServerConfig::setLogAndHashTableSize] derives
      from its arguments (log, hash table), or what it throws. *)
  resolveSizes : string -> string -> Thrown + (N * N);
  (** [ServiceMask::toString()] *)
  services_toString : list ServiceType -> string;
  (** [Server server(context, config); server.run();]: the server never
      returns, except that it throws; a return is kept for the [return 0]
      that follows the call. *)
  server_run : ServerConfig -> TransportManager -> TransportManager * ServerOutcome
}.

(** ** The state and exception monad of [main] *)

Section Main.

Context {E : Collaborators}.

Record World := mkWorld {
  transportManager : TransportManager;
  trace : list Event
}.

Definition M (A : Type) : Type := World -> World * (Abrupt + A).

Definition ret {A} (a : A) : M A := fun w => (w, inr a).

Definition bind {A B} (m : M A) (k : A -> M B) : M B :=
  fun w =>
    match m w with
    | (w', inr a) => k a w'
    | (w', inl stop) => (w', inl stop)
    end.

Definition throw {A} (t : Thrown) : M A := fun w => (w, inl (Raised t)).

Definition emit (e : Event) : M unit :=
  fun w => (mkWorld (transportManager w) (trace w ++ [e]), inr tt).

Definition LOG (level : LogLevel) (format : string) (args : list LogArg) : M unit :=
  emit (EvLog level format args).

End Main.

Declare Scope main_scope.
Delimit Scope main_scope with main.
Notation "x <- c1 ;; c2" := (bind c1 (fun x => c2))
  (at level 61, c1 at next level, right associativity) : main_scope.
Notation "c1 ;; c2" := (bind c1 (fun _ => c2))
  (at level 61, right associativity) : main_scope.

Local Open Scope main_scope.

(** ** The program *)

(** The loop of [main] that joins the arguments for the log: [i] runs from
    the start index over [argc] positions; a space goes before every
    argument but the one at index 0. *)
Fixpoint args_loop (count i : nat) (argv : list string) (args : string) : string :=
  match count with
  | O => args
  | S count' =>
      let args := if Nat.eqb i 0 then args else (args ++ " ")%string in
      let args := (args ++ nth i argv "")%string in
      args_loop count' (S i) argv args
  end.

Definition commandLineArgs (argc : nat) (argv : list string) : string :=
  args_loop argc 0 argv "".

Section Bootstrap.

Context {E : Collaborators}.

(** Modelled from the spec: the [DIE] macro of [ShortMacros.h], which is not
    part of [ServerMain.cc].  A conflict of the role flags is a fatal error
    with a fixed message that aborts start-up at once and ends in the
    outermost handler: the message is logged at [ERROR] level and an
    [Exception] carrying it is thrown. *)
Definition DIE {A} (message : string) : M A :=
  LOG ERROR message [] ;;
  throw (ThrowException message).

(** [OptionParser optionParser(serverOptions, argc, argv)]: read the command
    line, then store every option of the table into its variable.  A value
    of another type than its option's is an error of the parser, thrown
    like the errors of reading the command line. *)
Definition bindOptions (opts : list OptionDescription) (argv : list string)
                       (l : Locals) : Thrown + (Locals * CommonOptions) :=
  match parseCommandLine argv with
  | inl t => inl t
  | inr cl =>
      match notifyAll (variables cl) opts l with
      | Some l' => inr (l', options cl)
      | None => inl (ThrowStdException "invalid option value")
      end
  end.

Definition OptionParser (opts : list OptionDescription) (argv : list string)
                        (l : Locals) : M (Locals * CommonOptions) :=
  match bindOptions opts argv l with
  | inl t => throw t
  | inr bound => ret bound
  end.

(** The variables of [main] as declared: [config] from
    [ServerConfig::forExecution()], the strings empty; the two flags are
    always written by their switches. *)
Definition initialLocals : Locals := mkLocals forExecution "" "" false false.

(** What the option parser of [main] leaves in the variables. *)
Definition boundOptions (argv : list string) : Thrown + (Locals * CommonOptions) :=
  bindOptions serverOptions argv initialLocals.

Definition InfRcTransport_setName (name : string) : M unit :=
  emit (EvInfRcSetName name).

Definition transportManager_setTimeout (timeout : N) : M unit :=
  fun w => (mkWorld (tm_setTimeout timeout (transportManager w))
                    (trace w ++ [EvSetTimeout timeout]), inr tt).

Definition transportManager_initialize (locator : string) : M unit :=
  fun w =>
    let (tm, thrown) := tm_initialize locator (transportManager w) in
    let w' := mkWorld tm (trace w ++ [EvInitialize locator]) in
    match thrown with
    | Some t => (w', inl (Raised t))
    | None => (w', inr tt)
    end.

Definition transportManager_getListeningLocatorsString : M string :=
  fun w => (w, inr (tm_getListeningLocatorsString (transportManager w))).

(** [config.setLogAndHashTableSize(masterTotalMemory, hashTableMemory)]:
    the two derived byte counts are stored in [config.master]. *)
Definition setLogAndHashTableSize (masterTotalMemory hashTableMemory : string)
                                  (c : ServerConfig) : M ServerConfig :=
  emit (EvSetLogAndHashTableSize masterTotalMemory hashTableMemory) ;;
  match resolveSizes masterTotalMemory hashTableMemory with
  | inl t => throw t
  | inr (log, hash) => ret (set_master (set_sizes log hash (master c)) c)
  end.

Definition Server_run (c : ServerConfig) : M unit :=
  fun w =>
    let (tm, outcome) := server_run c (transportManager w) in
    let w' := mkWorld tm (trace w ++ [EvServerRun c]) in
    match outcome with
    | RunsForEver => (w', inl NoReturn)
    | ServerThrows t => (w', inl (Raised t))
    | ServerReturns => (w', inr tt)
    end.

(** The initializer list assigned to [config.services], by the branches of
    the [if] chain on the role flags. *)
Definition resolveServices (masterOnly backupOnly : bool) : list ServiceType :=
  if masterOnly then
    [MASTER_SERVICE; MEMBERSHIP_SERVICE; PING_SERVICE]
  else if backupOnly then
    [BACKUP_SERVICE; MEMBERSHIP_SERVICE; PING_SERVICE]
  else
    [MASTER_SERVICE; BACKUP_SERVICE; MEMBERSHIP_SERVICE; PING_SERVICE].

(** The check of the role flags and the choice of the services. *)
Definition resolveRoles (l : Locals) : M ServerConfig :=
  (if masterOnly l && backupOnly l
   then DIE "Can't specify both -B and -M options"
   else ret tt) ;;
  ret (set_services (resolveServices (masterOnly l) (backupOnly l)) (config l)).

(** The body of the [try] block of [main]. *)
Definition main_try (argv : list string) : M Z :=
  parsed <- OptionParser serverOptions argv initialLocals ;;
  let l := fst parsed in
  let optionParser_options := snd parsed in
  let args := commandLineArgs (List.length argv) argv in
  LOG NOTICE "Command line: %s" [ArgStr args] ;;
  config <- resolveRoles l ;;
  (* the local constant [localLocator] of the source *)
  let requested := getLocalLocator optionParser_options in
  (if INFINIBAND then InfRcTransport_setName requested else ret tt) ;;
  transportManager_setTimeout (getTransportTimeout optionParser_options) ;;
  transportManager_initialize requested ;;
  let config :=
    set_coordinatorLocator (getCoordinatorLocator optionParser_options) config in
  listening <- transportManager_getListeningLocatorsString ;;
  let config := set_localLocator listening config in
  LOG NOTICE "%s: Listening on %s"
      [ArgStr (services_toString (services config));
       ArgStr (localLocator config)] ;;
  config <- (if negb (backupOnly l) then
               LOG NOTICE "Using %u backups"
                   [ArgUint (numReplicas (master config))] ;;
               setLogAndHashTableSize (masterTotalMemory l) (hashTableMemory l)
                                      config
             else ret config) ;;
  Server_run config ;;
  ret 0%Z.

(** The [catch] clauses of [main]: each logs the listening locators known
    at that moment and returns 1. *)
Definition main_catch (t : Thrown) : M Z :=
  listening <- transportManager_getListeningLocatorsString ;;
  match t with
  | ThrowException what =>
      LOG ERROR "Fatal error in server at %s: %s" [ArgStr listening; ArgStr what]
  | ThrowStdException what =>
      LOG ERROR "Fatal error in server at %s: %s" [ArgStr listening; ArgStr what]
  | ThrowOther =>
      LOG ERROR "Unknown fatal error in server at %s" [ArgStr listening]
  end ;;
  ret 1%Z.

Definition try_catch {A} (body : M A) (handler : Thrown -> M A) : M A :=
  fun w =>
    match body w with
    | (w', inl (Raised t)) => handler t w'
    | r => r
    end.

(** A run of the process: the events it produced, the transport manager
    as it is left, and the exit code; no exit code when [main] does not
    return, the server running for ever. *)
Record Run := mkRun {
  events : list Event;
  finalTransport : TransportManager;
  exitCode : option Z
}.

Definition main (argv : list string) : Run :=
  match try_catch (main_try argv) main_catch (mkWorld newTransportManager []) with
  | (w, inr code) => mkRun (trace w) (transportManager w) (Some code)
  | (w, inl _) => mkRun (trace w) (transportManager w) None
  end.

End Bootstrap.

(** ** Reading the option table *)

(** An option that leaves the part [proj] of the variables as it is. *)
Definition preserves {A : Type} (proj : Locals -> A) (o : OptionDescription) : Prop :=
  forall v l l', optStore o v l = Some l' -> proj l' = proj l.

(** A flag as the command line gives it: absent means [false]. *)
Definition flagGiven (name : string) (vm : VariablesMap) : bool :=
  match vm_lookup name vm with
  | Some (VBool b) => b
  | _ => false
  end.

Definition strategyOf (l : Locals) : Z := strategy (backup (config l)).

(** ** Trace predicates *)

Definition isBinding (e : Event) : bool :=
  match e with EvInitialize _ => true | _ => false end.

(** Any call into the transport layer. *)
Definition isTransportCall (e : Event) : bool :=
  match e with
  | EvInfRcSetName _ | EvSetTimeout _ | EvInitialize _ => true
  | _ => false
  end.

Definition isSizing (e : Event) : bool :=
  match e with EvSetLogAndHashTableSize _ _ => true | _ => false end.

Definition isReplicaCountLog (e : Event) : bool :=
  match e with
  | EvLog _ format _ => String.eqb format "Using %u backups"
  | _ => false
  end.

Definition isServerRun (e : Event) : bool :=
  match e with EvServerRun _ => true | _ => false end.

(** The configuration the server was started with, if it was started. *)
Fixpoint serverConfigOf (tr : list Event) : option ServerConfig :=
  match tr with
  | [] => None
  | EvServerRun c :: _ => Some c
  | _ :: rest => serverConfigOf rest
  end.

(** The roles and the two byte counts of the master in a configuration. *)
Definition rolesAndSizes (c : ServerConfig) : list ServiceType * N * N :=
  (services c, logBytes (master c), hashTableBytes (master c)).

(** Every event satisfying [q] has an event satisfying [p] somewhere
    before it. *)
Definition precededBy (p q : Event -> bool) (tr : list Event) : Prop :=
  forall pre e post,
    tr = pre ++ e :: post -> q e = true -> existsb p pre = true.

(** No event satisfying [p] comes after an event satisfying [q]. *)
Definition neverAfter (p q : Event -> bool) (tr : list Event) : Prop :=
  forall pre e post,
    tr = pre ++ e :: post -> q e = true -> existsb p post = false.

(** The same orders as boolean checks. *)
Fixpoint precededByb (p q : Event -> bool) (seen : bool) (tr : list Event) : bool :=
  match tr with
  | [] => true
  | e :: rest => (negb (q e) || seen) && precededByb p q (seen || p e) rest
  end.

Fixpoint neverAfterb (p q : Event -> bool) (tr : list Event) : bool :=
  match tr with
  | [] => true
  | e :: rest => (negb (q e) || negb (existsb p rest)) && neverAfterb p q rest
  end.

(** The arguments from index [i] on, each with the separator the loop puts
    before it. *)
Fixpoint joinFrom (i : nat) (rest : list string) : string :=
  match rest with
  | [] => ""
  | a :: rest' =>
      ((if Nat.eqb i 0 then "" else " ") ++ a ++ joinFrom (S i) rest')%string
  end.

(** ** The memory size resolver *)

Inductive SizeError := InvalidSizeSpec.

Definition digit_of_ascii (c : ascii) : option N :=
  let n := N_of_ascii c in
  if ((48 <=? n) && (n <=? 57))%N then Some (n - 48)%N else None.

Fixpoint parseDigits (s : string) (acc : N) : option N :=
  match s with
  | EmptyString => Some acc
  | String c rest =>
      match digit_of_ascii c with
      | Some d => parseDigits rest (acc * 10 + d)%N
      | None => None
      end
  end.

(** A bare non-negative integer: one or more decimal digits. *)
Definition parseUnsigned (s : string) : option N :=
  match s with
  | EmptyString => None
  | _ => parseDigits s 0%N
  end.

(** [Some body] when the string is [body] followed by a percent sign. *)
Fixpoint percentBody (s : string) : option string :=
  match s with
  | EmptyString => None
  | String c EmptyString => if Ascii.eqb c "%" then Some EmptyString else None
  | String c rest => option_map (String c) (percentBody rest)
  end.

(** [total * p / 100] rounded to the nearest integer, halves upwards. *)
Definition roundPercent (total p : N) : N := ((total * p + 50) / 100)%N.

(** A percentage as it is written in decimal, [mantissa / 10 ^ places]:
    12.5 is the mantissa 125 with one place. *)
Record Percentage := mkPercentage {
  mantissa : N;
  places : nat
}.

(** The part of a numeral before the decimal point, and the part after it
    when there is a point. *)
Fixpoint splitAtPoint (s : string) : string * option string :=
  match s with
  | EmptyString => (EmptyString, None)
  | String c rest =>
      if Ascii.eqb c "." then (EmptyString, Some rest)
      else let (whole, fraction) := splitAtPoint rest in
           (String c whole, fraction)
  end.

(** A decimal numeral: digits, or digits, a point and digits. *)
Definition parsePercentage (s : string) : option Percentage :=
  let (whole, fraction) := splitAtPoint s in
  match parseUnsigned whole, fraction with
  | Some a, None => Some (mkPercentage a 0)
  | Some a, Some f =>
      match f with
      | EmptyString => None
      | _ => option_map (fun m => mkPercentage m (String.length f))
                        (parseDigits f a)
      end
  | None, _ => None
  end.

(** [100 * 10 ^ places]: the number the mantissa is a fraction of. *)
Definition percentScale (p : Percentage) : N := (100 * 10 ^ N.of_nat (places p))%N.

(** [0 < p <= 100] *)
Definition validPercent (p : Percentage) : bool :=
  ((0 <? mantissa p) && (mantissa p <=? percentScale p))%N.

(** [total * p / 100] rounded to the nearest integer, halves upwards, for
    a percentage in decimal. *)
Definition roundPercentOf (total : N) (p : Percentage) : N :=
  ((2 * (total * mantissa p) + percentScale p) / (2 * percentScale p))%N.

Definition MEGABYTE : N := 1048576.

(** Modelled from the spec: the memory size resolver behind
    [ServerConfig::setLogAndHashTableSize], whose body is not part of
    [ServerMain.cc].  A directive is either a percentage with a trailing
    percent sign, [0 < p <= 100], resolved to [round(total * p / 100)]
    bytes, or a bare non-negative integer of megabytes, resolved to
    [value * 1048576] bytes; anything else is an [InvalidSizeSpec].  Only
    the megabytes are said to be an integer: a percentage may have decimal
    places. *)
Definition resolveMemorySize (directive : string) (total : N) : SizeError + N :=
  match percentBody directive with
  | Some body =>
      match parsePercentage body with
      | Some p =>
          if validPercent p then inr (roundPercentOf total p)
          else inl InvalidSizeSpec
      | None => inl InvalidSizeSpec
      end
  | None =>
      match parseUnsigned directive with
      | Some n => inr (n * MEGABYTE)%N
      | None => inl InvalidSizeSpec
      end
  end.

(** Modelled from the spec: the resolver applied independently to the two
    master quantities, against the total memory of the host; the log size
    first.  An invalid directive is fatal: it is thrown as an exception. *)
Definition specResolveSizes (total : N) (masterTotalMemory hashTableMemory : string)
  : Thrown + (N * N) :=
  match resolveMemorySize masterTotalMemory total with
  | inl InvalidSizeSpec => inl (ThrowException "InvalidSizeSpec")
  | inr log =>
      match resolveMemorySize hashTableMemory total with
      | inl InvalidSizeSpec => inl (ThrowException "InvalidSizeSpec")
      | inr hash => inr (log, hash)
      end
  end.

(** The decimal numeral of a number, as a user writes it in a directive. *)
Definition digit_char (d : N) : ascii := ascii_of_N (48 + d).

Fixpoint printDigits (fuel : nat) (n : N) (acc : string) : string :=
  match fuel with
  | O => acc
  | S fuel' =>
      let acc' := String (digit_char (n mod 10)) acc in
      if (n <? 10)%N then acc' else printDigits fuel' (n / 10) acc'
  end.

Definition printUnsigned (n : N) : string :=
  printDigits (S (N.to_nat (N.size n))) n "".

Definition percentDirective (p : N) : string := (printUnsigned p ++ "%")%string.

(** The [k] lowest decimal digits of a number, put before [acc]. *)
Fixpoint printFixed (k : nat) (n : N) (acc : string) : string :=
  match k with
  | O => acc
  | S k' => printFixed k' (n / 10) (String (digit_char (n mod 10)) acc)
  end.

(** A percentage in decimal: the whole part and, when it has places, a
    point and as many digits. *)
Definition printPercentage (p : Percentage) : string :=
  match places p with
  | O => printUnsigned (mantissa p)
  | S _ =>
      let unit := (10 ^ N.of_nat (places p))%N in
      (printUnsigned (mantissa p / unit)
       ++ "." ++ printFixed (places p) (mantissa p mod unit) "")%string
  end.

(** What a user asks for in a size directive. *)
Inductive Directive :=
  | Percent (p : Percentage)
  | Megabytes (n : N).

(** The directive as the user writes it: "p%" or a bare integer. *)
Definition directiveString (d : Directive) : string :=
  match d with
  | Percent p => (printPercentage p ++ "%")%string
  | Megabytes n => printUnsigned n
  end.

(** A percentage has to be in (0,100]; any number of megabytes will do. *)
Definition validDirective (d : Directive) : Prop :=
  match d with
  | Percent p => (0 < mantissa p <= percentScale p)%N
  | Megabytes _ => True
  end.

(** The bytes a directive stands for on a host of [total] bytes:
    [round(total * p / 100)] or [n * 1048576]. *)
Definition directiveBytes (total : N) (d : Directive) : N :=
  match d with
  | Percent p => roundPercentOf total p
  | Megabytes n => (n * 1048576)%N
  end.

(** ** The cluster name rule *)

Definition UNNAMED : string := "__unnamed__".

(** Modelled from the spec: the matching rule of the replica reuse logic,
    which lives in the backup service, outside [ServerMain.cc]; the help text
    of the [clusterName] option documents it.  Two cluster names match when
    they are identical, except that [__unnamed__] never matches any cluster
    name, even itself. *)
Definition clusterNameMatches (a b : string) : bool :=
  negb (String.eqb a UNNAMED) && negb (String.eqb b UNNAMED) && String.eqb a b.

Record Replica := mkReplica {
  replicaClusterName : string;
  replicaSegmentId : N
}.

(** Modelled from the spec: the replicas found in storage that a backup
    started under [name] keeps; the others are discarded. *)
Definition reusableReplicas (name : string) (stored : list Replica) : list Replica :=
  filter (fun r => clusterNameMatches (replicaClusterName r) name) stored.

(** ** A concrete set of collaborators, for running the program *)

Module Sample.

Definition totalSystemMemory : N := 8192 * MEGABYTE.

(** A transport manager that holds the locators it listens on.  A port 0
    is resolved to a real port when binding; an unknown transport throws. *)
Definition initialize (locator : string) (tm : list string)
  : list string * option Thrown :=
  if String.eqb locator "tcp:host=0.0.0.0,port=0" then
    (tm ++ ["tcp:host=0.0.0.0,port=11100"], None)
  else if String.eqb locator "bogus:" then
    (tm, Some (ThrowException "No transport found for this service locator"))
  else
    (tm ++ [locator], None).

Definition defaults : ServerConfig :=
  mkServerConfig [] "" "" UNNAMED true
                 (mkMasterConfig false 0 0 0)
                 (mkBackupConfig false 0 "" 0).

(** A reader for the few command-line forms used below; the program name
    in [argv[0]] is skipped. *)
Fixpoint readArgs (args : list string) (cl : CommandLine) : Thrown + CommandLine :=
  let add k v rest :=
    readArgs rest (mkCommandLine (variables cl ++ [(k, v)]) (options cl)) in
  let common f rest :=
    readArgs rest (mkCommandLine (variables cl) (f (options cl))) in
  match args with
  | [] => inr cl
  | "-B" :: rest => add "backupOnly" (VBool true) rest
  | "-M" :: rest => add "masterOnly" (VBool true) rest
  | "-t" :: v :: rest => add "totalMasterMemory" (VString v) rest
  | "-h" :: v :: rest => add "hashTableMemory" (VString v) rest
  | "-r" :: v :: rest =>
      match parseUnsigned v with
      | Some n => add "replicas" (VUint32 n) rest
      | None => inl (ThrowStdException "invalid option value")
      end
  | "-L" :: v :: rest =>
      common (fun o => mkCommonOptions v (getCoordinatorLocator o)
                                       (getTransportTimeout o)) rest
  | "-C" :: v :: rest =>
      common (fun o => mkCommonOptions (getLocalLocator o) v
                                       (getTransportTimeout o)) rest
  | _ => inl (ThrowStdException "unknown option")
  end.

Definition parse (argv : list string) : Thrown + CommandLine :=
  readArgs (tl argv) (mkCommandLine [] (mkCommonOptions "" "" 0)).

Definition showService (s : ServiceType) : string :=
  match s with
  | MASTER_SERVICE => "MASTER_SERVICE"
  | BACKUP_SERVICE => "BACKUP_SERVICE"
  | MEMBERSHIP_SERVICE => "MEMBERSHIP_SERVICE"
  | PING_SERVICE => "PING_SERVICE"
  end.

(** The sample collaborators; their server stops at once and returns. *)
Definition env : Collaborators := {|
  INFINIBAND := false;
  TransportManager := list string;
  newTransportManager := [];
  tm_setTimeout := fun _ tm => tm;
  tm_initialize := initialize;
  tm_getListeningLocatorsString := String.concat ";";
  forExecution := defaults;
  parseCommandLine := parse;
  resolveSizes := specResolveSizes totalSystemMemory;
  services_toString := fun l => String.concat ", " (map showService l);
  server_run := fun _ tm => (tm, ServerReturns)
|}.

End Sample.

(** The collaborators [E] with the memory sizing of the spec, on a host
    with [total] bytes of memory. *)
Definition withSpecSizing (E : Collaborators) (total : N) : Collaborators := {|
  INFINIBAND := @INFINIBAND E;
  TransportManager := @TransportManager E;
  newTransportManager := @newTransportManager E;
  tm_setTimeout := @tm_setTimeout E;
  tm_initialize := @tm_initialize E;
  tm_getListeningLocatorsString := @tm_getListeningLocatorsString E;
  forExecution := @forExecution E;
  parseCommandLine := @parseCommandLine E;
  resolveSizes := specResolveSizes total;
  services_toString := @services_toString E;
  server_run := @server_run E
|}.

(** ** What a run shows *)

Definition isErrorLog (e : Event) : bool :=
  match e with EvLog ERROR _ _ => true | _ => false end.

Definition isListeningLog (e : Event) : bool :=
  match e with
  | EvLog NOTICE format _ => String.eqb format "%s: Listening on %s"
  | _ => false
  end.

Fixpoint lastEvent (tr : list Event) : option Event :=
  match tr with
  | [] => None
  | [e] => Some e
  | _ :: rest => lastEvent rest
  end.

(** The line a [catch] clause of [main] logs for what it caught, given the
    listening locators at that moment. *)
Definition handlerLine (listening : string) (t : Thrown) : Event :=
  match t with
  | ThrowException what | ThrowStdException what =>
      EvLog ERROR "Fatal error in server at %s: %s" [ArgStr listening; ArgStr what]
  | ThrowOther =>
      EvLog ERROR "Unknown fatal error in server at %s" [ArgStr listening]
  end.

(** The calls [main] makes into the transport layer up to the binding:
    the name for Infiniband if compiled in, the timeout, the locator. *)
Definition bindingCalls (infiniband : bool) (o : CommonOptions) : list Event :=
  (if infiniband then [EvInfRcSetName (getLocalLocator o)] else [])
  ++ [EvSetTimeout (getTransportTimeout o); EvInitialize (getLocalLocator o)].

(** The value of an option on the command line, by its type; [d] when the
    option is absent. *)
Definition boolGiven (name : string) (d : bool) (vm : VariablesMap) : bool :=
  match vm_lookup name vm with Some (VBool b) => b | _ => d end.
Definition intGiven (name : string) (d : Z) (vm : VariablesMap) : Z :=
  match vm_lookup name vm with Some (VInt z) => z | _ => d end.
Definition uintGiven (name : string) (d : N) (vm : VariablesMap) : N :=
  match vm_lookup name vm with Some (VUint32 n) => n | _ => d end.
Definition stringGiven (name : string) (d : string) (vm : VariablesMap) : string :=
  match vm_lookup name vm with Some (VString s) => s | _ => d end.

(** The collaborators [E] with a server that ends as [outcome] says and
    leaves the transport manager as it is. *)
Definition withServer (E : Collaborators) (outcome : ServerOutcome) : Collaborators := {|
  INFINIBAND := @INFINIBAND E;
  TransportManager := @TransportManager E;
  newTransportManager := @newTransportManager E;
  tm_setTimeout := @tm_setTimeout E;
  tm_initialize := @tm_initialize E;
  tm_getListeningLocatorsString := @tm_getListeningLocatorsString E;
  forExecution := @forExecution E;
  parseCommandLine := @parseCommandLine E;
  resolveSizes := @resolveSizes E;
  services_toString := @services_toString E;
  server_run := fun _ tm => (tm, outcome)
|}.

(** * Properties *)

(** ** Unfolding a run *)

(** The steps of [main], unfolded down to the calls of the collaborators. *)
Ltac unfold_main :=
  unfold main, try_catch, main_try, main_catch, OptionParser, resolveRoles, DIE,
    LOG, setLogAndHashTableSize, Server_run, InfRcTransport_setName,
    transportManager_setTimeout, transportManager_initialize,
    transportManager_getListeningLocatorsString, bind, ret, throw, emit;
  cbn [fst snd transportManager trace events finalTransport exitCode].

(** Case analysis on everything a run of [main] branches on. *)
Ltac main_step :=
  match goal with
  | |- context [bindOptions ?opts ?a ?x] =>
      destruct (bindOptions opts a x) as [?t|[?l ?o]] eqn:?Hbound
  | |- context [masterOnly ?x] => destruct (masterOnly x) eqn:?HM
  | |- context [backupOnly ?x] => destruct (backupOnly x) eqn:?HB
  | |- context [if INFINIBAND then _ else _] => destruct INFINIBAND eqn:?HI
  | |- context [tm_initialize ?a ?b] =>
      destruct (tm_initialize a b) as [?tm [?t|]] eqn:?Hinit
  | |- context [resolveSizes ?a ?b] =>
      destruct (resolveSizes a b) as [?t|[?log ?hash]] eqn:?Hsizes
  | |- context [server_run ?a ?b] =>
      destruct (server_run a b) as [?tm [ |?t| ]] eqn:?Hrun
  | |- context [match ?t with
                | ThrowException _ => _
                | ThrowStdException _ => _
                | ThrowOther => _
                end] => destruct t
  end.

Ltac main_cases :=
  repeat (cbn [fst snd transportManager trace events finalTransport exitCode andb negb
               resolveServices app];
          try main_step).

(** Every entry of a list of options stores into some other variable. *)
Ltac other_options :=
  repeat constructor; intros v l1 l2; destruct v; cbn; intros [= <-]; reflexivity.

(** The variable [proj] after binding the table, read off the one option,
    at index [n], that stores into it; [split] is the lemma that isolates
    that option. *)
Ltac bound_field split proj n H :=
  let l1 := fresh "l1" in
  let l2 := fresh "l2" in
  let H0 := fresh "H0" in
  let Hn := fresh "Hn" in
  let H2 := fresh "H2" in
  destruct (split _ proj _ (firstn n serverOptions)
                  (nth n serverOptions (bool_switch "" set_backupOnly))
                  (skipn (S n) serverOptions) _ _
                  ltac:(cbn; other_options) ltac:(cbn; other_options) H)
    as (l1 & l2 & H0 & Hn & H2);
  cbn beta in H0, H2; rewrite H2; revert Hn;
  unfold notify, boolGiven, intGiven, uintGiven, stringGiven; cbn;
  match goal with
  | |- context [vm_lookup ?k ?vm] => destruct (vm_lookup k vm) as [[]|]
  end; cbn; intros [= <-]; cbn; try rewrite <- H0; reflexivity.

(** ** Runs of the program *)

(** A master-only server with 2048 MB of log on a host of 8192 MB. *)
Example run_master_only :
  option_map rolesAndSizes
    (serverConfigOf
       (events (main (E := Sample.env)
                     ["server"; "-M"; "-t"; "2048"; "-h"; "10%"])))
  = Some ([MASTER_SERVICE; MEMBERSHIP_SERVICE; PING_SERVICE],
          2048 * MEGABYTE, roundPercent (8192 * MEGABYTE) 10)%N.
Proof. vm_compute. reflexivity. Qed.

(** No role flags and the default sizes on a host of 16384 MB. *)
Example run_defaults :
  option_map rolesAndSizes
    (serverConfigOf
       (events (main (E := withSpecSizing Sample.env (16384 * MEGABYTE))
                     ["server"])))
  = Some ([MASTER_SERVICE; BACKUP_SERVICE; MEMBERSHIP_SERVICE; PING_SERVICE],
          roundPercent (16384 * MEGABYTE) 10,
          roundPercent (16384 * MEGABYTE) 10)%N.
Proof. vm_compute. reflexivity. Qed.

(** Both role flags: three log lines, exit code 1, no server. *)
Example run_conflict :
  let r := main (E := Sample.env) ["server"; "-B"; "-M"] in
  exitCode r = Some 1%Z /\ List.length (events r) = 3%nat /\
  serverConfigOf (events r) = None.
Proof. vm_compute. repeat split. Qed.

(** A server that runs for ever: [main] does not return. *)
Example run_for_ever :
  let r := main (E := withServer Sample.env RunsForEver) ["server"; "-M"] in
  exitCode r = None /\ existsb isErrorLog (events r) = false /\
  option_map services (serverConfigOf (events r))
  = Some [MASTER_SERVICE; MEMBERSHIP_SERVICE; PING_SERVICE].
Proof. vm_compute. repeat split. Qed.

(** A server that throws: the [catch] clause logs it, exit code 1. *)
Example run_server_throws :
  let r := main (E := withServer Sample.env (ServerThrows ThrowOther))
                ["server"; "-L"; "tcp:host=h,port=1"] in
  exitCode r = Some 1%Z /\
  lastEvent (events r)
  = Some (EvLog ERROR "Unknown fatal error in server at %s"
                [ArgStr "tcp:host=h,port=1"]).
Proof. vm_compute. repeat split. Qed.

(** A transport that cannot bind: exit code 1 after the call of
    [initialize], no sizing. *)
Example run_bind_failure :
  let r := main (E := Sample.env) ["server"; "-L"; "bogus:"] in
  exitCode r = Some 1%Z /\ existsb isBinding (events r) = true /\
  existsb isSizing (events r) = false.
Proof. vm_compute. repeat split. Qed.

(** When [main] returns, it returns 0 or 1. *)
Lemma main_exit_code (E : Collaborators) (argv : list string) (code : Z) :
  exitCode (main argv) = Some code -> code = 0%Z \/ code = 1%Z.
Proof.
  unfold_main. main_cases; intros [= <-]; auto.
Qed.

(** ** Orders on a trace, decided *)

Lemma precededByb_spec (p q : Event -> bool) (tr : list Event) (seen : bool) :
  precededByb p q seen tr = true <->
  (forall pre e post,
      tr = pre ++ e :: post -> q e = true -> seen || existsb p pre = true).
Proof.
  revert seen. induction tr as [|x tr IH]; intros seen; cbn [precededByb].
  - split; [|reflexivity].
    intros _ [|y pre] e post Heq; discriminate Heq.
  - rewrite andb_true_iff, IH. split.
    + intros [Hx Hrest] [|y pre] e post Heq Hq; cbn in Heq; injection Heq as -> ->.
      * rewrite Hq in Hx. cbn in *. now rewrite orb_false_r.
      * cbn [existsb]. rewrite orb_assoc. now apply (Hrest pre e post).
    + intros H. split.
      * destruct (q x) eqn:Hq; [|reflexivity].
        specialize (H [] x tr eq_refl Hq). cbn in *.
        now rewrite orb_false_r in H.
      * intros pre e post -> Hq. rewrite <- orb_assoc.
        now apply (H (x :: pre) e post).
Qed.

Lemma precededByb_sound (p q : Event -> bool) (tr : list Event) :
  precededByb p q false tr = true -> precededBy p q tr.
Proof.
  intros H pre e post Heq Hq.
  now apply (proj1 (precededByb_spec p q tr false) H pre e post).
Qed.

Lemma neverAfterb_sound (p q : Event -> bool) (tr : list Event) :
  neverAfterb p q tr = true -> neverAfter p q tr.
Proof.
  induction tr as [|x tr IH]; cbn [neverAfterb]; intros H pre e post Heq Hq.
  - destruct pre; discriminate Heq.
  - apply andb_true_iff in H as [Hx Hrest].
    destruct pre as [|y pre]; cbn in Heq; injection Heq as -> ->.
    + rewrite Hq in Hx. cbn in Hx. now apply negb_true_iff in Hx.
    + now apply (IH Hrest pre e post).
Qed.

(** ** The logged command line *)

Lemma append_assoc (a b c : string) : ((a ++ b) ++ c = a ++ (b ++ c))%string.
Proof. induction a as [|x a IH]; cbn; [reflexivity | now rewrite IH]. Qed.

Lemma append_empty_r (a : string) : (a ++ "")%string = a.
Proof. induction a as [|x a IH]; cbn; [reflexivity | now rewrite IH]. Qed.

Lemma args_loop_joinFrom (rest pre : list string) (args : string) :
  args_loop (List.length rest) (List.length pre) (pre ++ rest) args
  = (args ++ joinFrom (List.length pre) rest)%string.
Proof.
  revert pre args. induction rest as [|a rest IH]; intros pre args.
  - cbn. now rewrite append_empty_r.
  - cbn [List.length args_loop joinFrom].
    rewrite app_nth2, Nat.sub_diag by auto. cbn [nth].
    replace (pre ++ a :: rest) with ((pre ++ [a]) ++ rest)
      by now rewrite <- app_assoc.
    replace (S (List.length pre)) with (List.length (pre ++ [a]))
      by (rewrite length_app; cbn; lia).
    rewrite IH.
    destruct (Nat.eqb (List.length pre) 0); cbn [append];
      now rewrite ?append_assoc.
Qed.

Lemma joinFrom_concat (a : string) (rest : list string) :
  String.concat " " (a :: rest) = (a ++ joinFrom 1 rest)%string.
Proof.
  revert a. induction rest as [|b rest IH]; intros a.
  - cbn. now rewrite append_empty_r.
  - change (String.concat " " (a :: b :: rest))
      with (a ++ " " ++ String.concat " " (b :: rest))%string.
    rewrite IH. cbn [joinFrom Nat.eqb].
    assert (Hshift : forall i l, joinFrom (S i) l = joinFrom 1 l).
    { intros i l. revert i. induction l as [|x l IHl]; intros i; [reflexivity|].
      cbn [joinFrom Nat.eqb]. now rewrite (IHl (S i)), (IHl 1%nat). }
    now rewrite (Hshift 1%nat).
Qed.

(** The loop of [main] joins the arguments by one space each. *)
Lemma commandLineArgs_concat (argv : list string) :
  commandLineArgs (List.length argv) argv = String.concat " " argv.
Proof.
  unfold commandLineArgs.
  pose proof (args_loop_joinFrom argv [] "") as H.
  cbn [List.length app append] in H. rewrite H.
  destruct argv as [|a rest]; [reflexivity|].
  rewrite joinFrom_concat. reflexivity.
Qed.

Lemma precededBy_iff (p q : Event -> bool) (tr : list Event) :
  precededBy p q tr <-> precededByb p q false tr = true.
Proof.
  split; [|apply precededByb_sound].
  intros H. apply precededByb_spec. intros pre e post Heq Hq.
  now apply (H pre e post).
Qed.

(** ** The order of binding and sizing *)

(** C1, as stated, fails: in the run of a combined server the transport is
    bound although no memory sizing has taken place before. *)
Lemma sizing_before_binding_counterexample :
  ~ precededBy isSizing isBinding
      (events (main (E := Sample.env)
                    ["server"; "-L"; "tcp:host=0.0.0.0,port=0"])).
Proof.
  intros H. apply precededBy_iff in H. vm_compute in H. discriminate H.
Qed.

(** C1, amended: in every run the transport is bound before the memory is
    sized.  Every call of [setLogAndHashTableSize] has the call of
    [initialize] before it, and no [initialize] follows it. *)
Theorem binding_precedes_sizing (E : Collaborators) (argv : list string) :
  precededBy isBinding isSizing (events (main argv)) /\
  neverAfter isBinding isSizing (events (main argv)).
Proof.
  unfold_main. main_cases;
    (split; [apply precededByb_sound | apply neverAfterb_sound]; reflexivity).
Qed.

(** ** The command line in the log *)

(** C10: once the options are bound, the first event of every run is the
    NOTICE line with the arguments joined by single spaces; when both role
    flags are set, the run goes on with the error of the conflict only. *)
Theorem command_line_logged_before_role_check
        (E : Collaborators) (argv : list string) (l : Locals) (o : CommonOptions) :
  boundOptions argv = inr (l, o) ->
  exists rest,
    events (main argv)
    = EvLog NOTICE "Command line: %s" [ArgStr (String.concat " " argv)] :: rest /\
    (masterOnly l = true -> backupOnly l = true ->
     rest = [EvLog ERROR "Can't specify both -B and -M options" [];
             EvLog ERROR "Fatal error in server at %s: %s"
                   [ArgStr (tm_getListeningLocatorsString newTransportManager);
                    ArgStr "Can't specify both -B and -M options"]]).
Proof.
  intros Hbound. unfold boundOptions in Hbound.
  unfold_main. rewrite Hbound, commandLineArgs_concat.
  main_cases; eexists; (split; [reflexivity|]); intros; congruence.
Qed.

Lemma command_line_logged_before_role_check_witness :
  exists rest,
    events (main (E := Sample.env) ["server"; "-B"; "-M"])
    = EvLog NOTICE "Command line: %s" [ArgStr "server -B -M"] :: rest /\
    List.length rest = 2%nat.
Proof.
  destruct (command_line_logged_before_role_check
              Sample.env ["server"; "-B"; "-M"]
              (set_masterOnly true (set_backupOnly true
                 (mkLocals (mkServerConfig [] "" "" UNNAMED true
                              (mkMasterConfig false 0 0 0)
                              (mkBackupConfig false 1 "/var/tmp/backup.log" 512))
                           "10%" "10%" false false)))
              (mkCommonOptions "" "" 0) eq_refl) as [rest [Hev Hrest]].
  exists rest. split; [exact Hev|].
  rewrite (Hrest eq_refl eq_refl). reflexivity.
Defined.

(** ** The role flags *)

Lemma resolveRoles_conflict (E : Collaborators) (l : Locals) (w : World) :
  masterOnly l = true -> backupOnly l = true ->
  resolveRoles l w
  = (mkWorld (transportManager w)
             (trace w ++ [EvLog ERROR "Can't specify both -B and -M options" []]),
     inl (ThrowException "Can't specify both -B and -M options")).
Proof.
  intros HM HB. unfold resolveRoles, DIE, LOG, bind, emit, throw, ret.
  rewrite HM, HB. reflexivity.
Qed.

Lemma resolveRoles_services (E : Collaborators) (l : Locals) (w : World) :
  masterOnly l && backupOnly l = false ->
  resolveRoles l w
  = (w, inr (set_services (resolveServices (masterOnly l) (backupOnly l))
                          (config l))).
Proof.
  intros H. unfold resolveRoles, bind, ret. rewrite H. reflexivity.
Qed.

(** C2: for the four values of the pair (masterOnly, backupOnly) the role
    check either throws the conflict error or yields the configuration with
    the services of the role; and a server is only ever started with the
    services chosen from flags that are not both set. *)
Theorem role_flags_service_set (E : Collaborators) (l : Locals) (w : World) :
  let flags m b := set_masterOnly m (set_backupOnly b l) in
  snd (resolveRoles (flags true true) w)
    = inl (ThrowException "Can't specify both -B and -M options") /\
  (exists c, resolveRoles (flags true false) w = (w, inr c) /\
             services c = [MASTER_SERVICE; MEMBERSHIP_SERVICE; PING_SERVICE]) /\
  (exists c, resolveRoles (flags false true) w = (w, inr c) /\
             services c = [BACKUP_SERVICE; MEMBERSHIP_SERVICE; PING_SERVICE]) /\
  (exists c, resolveRoles (flags false false) w = (w, inr c) /\
             services c = [MASTER_SERVICE; BACKUP_SERVICE;
                           MEMBERSHIP_SERVICE; PING_SERVICE]) /\
  (forall argv c,
      In (EvServerRun c) (events (main argv)) ->
      exists l' o,
        boundOptions argv = inr (l', o) /\
        masterOnly l' && backupOnly l' = false /\
        services c = resolveServices (masterOnly l') (backupOnly l')).
Proof.
  intros flags. split; [|split; [|split; [|split]]].
  - unfold flags. now rewrite resolveRoles_conflict.
  - eexists. split; [now apply resolveRoles_services | reflexivity].
  - eexists. split; [now apply resolveRoles_services | reflexivity].
  - eexists. split; [now apply resolveRoles_services | reflexivity].
  - intros argv c. unfold boundOptions. unfold_main. main_cases;
      cbn [In]; intros H;
      repeat (destruct H as [H|H]; [try discriminate H|]); try contradiction;
      injection H as <-; do 2 eexists; (split; [reflexivity|]);
      rewrite ?HM, ?HB; split; reflexivity.
Qed.

(** C4: with both role flags set the run consists of the command line in
    the log, the error of the conflict and the line of the handler; it exits
    with code 1, and the transport manager is never called and is left as it
    was created. *)
Theorem role_conflict_exits_before_binding
        (E : Collaborators) (argv : list string) (l : Locals) (o : CommonOptions) :
  boundOptions argv = inr (l, o) ->
  masterOnly l = true ->
  backupOnly l = true ->
  exitCode (main argv) = Some 1%Z /\
  events (main argv)
  = [EvLog NOTICE "Command line: %s" [ArgStr (String.concat " " argv)];
     EvLog ERROR "Can't specify both -B and -M options" [];
     EvLog ERROR "Fatal error in server at %s: %s"
           [ArgStr (tm_getListeningLocatorsString newTransportManager);
            ArgStr "Can't specify both -B and -M options"]] /\
  existsb isTransportCall (events (main argv)) = false /\
  existsb isBinding (events (main argv)) = false /\
  finalTransport (main argv) = newTransportManager.
Proof.
  intros Hbound HM HB. unfold boundOptions in Hbound.
  unfold_main. rewrite Hbound, commandLineArgs_concat.
  cbn [fst snd]. rewrite HM, HB. cbn. repeat split.
Qed.

Lemma role_conflict_exits_before_binding_witness :
  exitCode (main (E := Sample.env) ["server"; "-B"; "-M"]) = Some 1%Z /\
  existsb isBinding (events (main (E := Sample.env) ["server"; "-B"; "-M"])) = false.
Proof.
  pose proof (role_conflict_exits_before_binding
                Sample.env ["server"; "-B"; "-M"]
                (set_masterOnly true (set_backupOnly true
                   (mkLocals (mkServerConfig [] "" "" UNNAMED true
                                (mkMasterConfig false 0 0 0)
                                (mkBackupConfig false 1 "/var/tmp/backup.log" 512))
                             "10%" "10%" false false)))
                (mkCommonOptions "" "" 0) eq_refl eq_refl eq_refl) as H.
  split; [exact (proj1 H) | exact (proj1 (proj2 (proj2 (proj2 H))))].
Defined.

(** ** Backup-only servers *)

(** C7: in backup-only mode [setLogAndHashTableSize] is never called and
    the line with the number of replicas is never logged; a server that is
    started runs the backup services with the two byte counts of the master
    untouched. *)
Theorem backup_only_skips_sizing
        (E : Collaborators) (argv : list string) (l : Locals) (o : CommonOptions) :
  boundOptions argv = inr (l, o) ->
  backupOnly l = true ->
  masterOnly l = false ->
  existsb isSizing (events (main argv)) = false /\
  existsb isReplicaCountLog (events (main argv)) = false /\
  (forall c, In (EvServerRun c) (events (main argv)) ->
             services c = [BACKUP_SERVICE; MEMBERSHIP_SERVICE; PING_SERVICE] /\
             logBytes (master c) = logBytes (master (config l)) /\
             hashTableBytes (master c) = hashTableBytes (master (config l))).
Proof.
  intros Hbound HB HM. unfold boundOptions in Hbound.
  unfold_main. rewrite Hbound. cbn [fst snd]. rewrite HB, HM.
  main_cases; (split; [reflexivity | split; [reflexivity|]]);
    intros c H; cbn [In] in H;
    repeat (destruct H as [H|H]; [try discriminate H|]); try contradiction;
    injection H as <-; repeat split.
Qed.

Lemma backup_only_skips_sizing_witness :
  existsb isSizing (events (main (E := Sample.env) ["server"; "-B"])) = false /\
  existsb isReplicaCountLog (events (main (E := Sample.env) ["server"; "-B"])) = false /\
  exitCode (main (E := Sample.env) ["server"; "-B"]) = Some 0%Z.
Proof.
  pose proof (backup_only_skips_sizing
                Sample.env ["server"; "-B"]
                (set_backupOnly true
                   (mkLocals (mkServerConfig [] "" "" UNNAMED true
                                (mkMasterConfig false 0 0 0)
                                (mkBackupConfig false 1 "/var/tmp/backup.log" 512))
                             "10%" "10%" false false))
                (mkCommonOptions "" "" 0) eq_refl eq_refl eq_refl) as H.
  split; [exact (proj1 H) | split; [exact (proj1 (proj2 H)) | reflexivity]].
Defined.

(** ** The listening locator *)

(** C8: the configuration a server is started with carries, as its local
    locator, the listening locators the transport manager reports after its
    successful initialisation with the requested locator; the same string
    is in the log. *)
Theorem localLocator_is_listening_locator
        (E : Collaborators) (argv : list string) (c : ServerConfig) :
  In (EvServerRun c) (events (main argv)) ->
  exists l o tm,
    boundOptions argv = inr (l, o) /\
    tm_initialize (getLocalLocator o)
                  (tm_setTimeout (getTransportTimeout o) newTransportManager)
    = (tm, None) /\
    localLocator c = tm_getListeningLocatorsString tm /\
    In (EvLog NOTICE "%s: Listening on %s"
              [ArgStr (services_toString (services c));
               ArgStr (tm_getListeningLocatorsString tm)])
       (events (main argv)).
Proof.
  unfold boundOptions. unfold_main. main_cases;
    cbn [In]; intros H;
    repeat (destruct H as [H|H]; [try discriminate H|]); try contradiction;
    injection H as <-; do 3 eexists;
    (split; [reflexivity | split; [eassumption | split; [reflexivity|]]]);
    cbn; tauto.
Qed.

Lemma localLocator_is_listening_locator_witness :
  exists c,
    In (EvServerRun c)
       (events (main (E := Sample.env)
                     ["server"; "-L"; "tcp:host=0.0.0.0,port=0"])) /\
    localLocator c = "tcp:host=0.0.0.0,port=11100".
Proof.
  eexists. split.
  - cbn. do 6 right. left. reflexivity.
  - match goal with
    | |- localLocator ?c = _ =>
        destruct (localLocator_is_listening_locator
                    Sample.env ["server"; "-L"; "tcp:host=0.0.0.0,port=0"] c)
          as (l & o & tm & Hbound & Hinit & Hloc & _)
    end.
    + cbn. do 6 right. left. reflexivity.
    + rewrite Hloc. vm_compute in Hbound. injection Hbound as <- <-.
      vm_compute in Hinit. injection Hinit as <-. reflexivity.
Defined.

(** ** Defaults of the option table *)

Lemma notify_preserves {A : Type} (proj : Locals -> A) vm o l l' :
  preserves proj o -> notify vm o l = Some l' -> proj l' = proj l.
Proof.
  intros Hp. unfold notify.
  destruct (vm_lookup _ vm) as [v|]; [now apply Hp|].
  destruct (optDefault o) as [d|]; [now apply Hp|].
  now intros [= ->].
Qed.

Lemma notifyAll_preserves {A : Type} (proj : Locals -> A) vm opts l l' :
  Forall (preserves proj) opts -> notifyAll vm opts l = Some l' -> proj l' = proj l.
Proof.
  intros Hall. revert l. induction Hall as [|o opts Ho _ IH]; intros l; cbn.
  - now intros [= ->].
  - destruct (notify vm o l) as [l1|] eqn:H1; [|discriminate].
    intros H. rewrite (IH _ H). now apply (notify_preserves proj vm o).
Qed.

(** Only one option of a table writes [proj]: the final value is the one
    this option stored. *)
Lemma notifyAll_split {A : Type} (proj : Locals -> A) vm before o after l l' :
  Forall (preserves proj) before ->
  Forall (preserves proj) after ->
  notifyAll vm (before ++ o :: after) l = Some l' ->
  exists l1 l2, notify vm o l1 = Some l2 /\ proj l' = proj l2.
Proof.
  intros Hb Ha. revert l. induction before as [|b before IH]; intros l; cbn.
  - destruct (notify vm o l) as [l2|] eqn:H2; [|discriminate].
    intros H. exists l, l2. split; [assumption|].
    now apply (notifyAll_preserves proj vm after).
  - destruct (notify vm b l) as [l1|]; [|discriminate].
    apply IH. now inversion Hb.
Qed.

Lemma bound_strategy vm l l' :
  notifyAll vm serverOptions l = Some l' ->
  strategyOf l' = match vm_lookup "backupStrategy" vm with
                  | Some (VInt z) => z
                  | _ => strategy_value RANDOM_REFINE_AVG
                  end.
Proof.
  intros H.
  destruct (notifyAll_split strategyOf vm (firstn 2 serverOptions)
              (nth 2 serverOptions (bool_switch "" set_backupOnly))
              (skipn 3 serverOptions) l l') as (l1 & l2 & Hn & ->).
  - cbn. other_options.
  - cbn. other_options.
  - exact H.
  - revert Hn. unfold notify. cbn.
    destruct (vm_lookup "backupStrategy" vm) as [[]|]; cbn;
      intros [= <-]; reflexivity.
Qed.

Lemma bound_backupOnly vm l l' :
  notifyAll vm serverOptions l = Some l' ->
  backupOnly l' = flagGiven "backupOnly" vm.
Proof.
  intros H.
  destruct (notifyAll_split backupOnly vm (firstn 1 serverOptions)
              (nth 1 serverOptions (bool_switch "" set_backupOnly))
              (skipn 2 serverOptions) l l') as (l1 & l2 & Hn & ->).
  - cbn. other_options.
  - cbn. other_options.
  - exact H.
  - revert Hn. unfold notify, flagGiven. cbn.
    destruct (vm_lookup "backupOnly" vm) as [[]|]; cbn;
      intros [= <-]; reflexivity.
Qed.

Lemma bound_masterOnly vm l l' :
  notifyAll vm serverOptions l = Some l' ->
  masterOnly l' = flagGiven "masterOnly" vm.
Proof.
  intros H.
  destruct (notifyAll_split masterOnly vm (firstn 6 serverOptions)
              (nth 6 serverOptions (bool_switch "" set_backupOnly))
              (skipn 7 serverOptions) l l') as (l1 & l2 & Hn & ->).
  - cbn. other_options.
  - cbn. other_options.
  - exact H.
  - revert Hn. unfold notify, flagGiven. cbn.
    destruct (vm_lookup "masterOnly" vm) as [[]|]; cbn;
      intros [= <-]; reflexivity.
Qed.

(** The role flags [main] tests are the ones given on the command line. *)
Lemma bound_role_flags (E : Collaborators) argv cl l o :
  parseCommandLine argv = inr cl ->
  boundOptions argv = inr (l, o) ->
  masterOnly l = flagGiven "masterOnly" (variables cl) /\
  backupOnly l = flagGiven "backupOnly" (variables cl).
Proof.
  intros Hparse. unfold boundOptions, bindOptions. rewrite Hparse.
  destruct (notifyAll _ _ _) as [l'|] eqn:Hn; [|discriminate].
  intros [= <- _].
  split; [now apply (bound_masterOnly _ _ _ Hn)
         | now apply (bound_backupOnly _ _ _ Hn)].
Qed.

(** C3, as stated, fails: without the flag on the command line the bound
    strategy is 1, not 0. *)
Lemma default_backupStrategy_counterexample :
  exists cl l o,
    parseCommandLine (Collaborators := Sample.env) ["server"] = inr cl /\
    vm_lookup "backupStrategy" (variables cl) = None /\
    boundOptions (E := Sample.env) ["server"] = inr (l, o) /\
    strategy (backup (config l)) = 1%Z /\
    strategy (backup (config l)) <> strategy_value RANDOM_REFINE_MIN /\
    strategy (backup (config l)) <> 0%Z.
Proof.
  do 3 eexists. repeat split; try reflexivity; cbn; discriminate.
Qed.

(** C3, amended: when the flag is absent from the command line the bound
    value of [backupStrategy] is that of [RANDOM_REFINE_AVG], which the help
    text of the option numbers 1 (random refine avg). *)
Theorem default_backupStrategy
        (E : Collaborators) (argv : list string)
        (cl : CommandLine) (l : Locals) (o : CommonOptions) :
  parseCommandLine argv = inr cl ->
  vm_lookup "backupStrategy" (variables cl) = None ->
  boundOptions argv = inr (l, o) ->
  strategy (backup (config l)) = strategy_value RANDOM_REFINE_AVG /\
  strategy (backup (config l)) = 1%Z.
Proof.
  intros Hparse Habsent. unfold boundOptions, bindOptions. rewrite Hparse.
  destruct (notifyAll _ _ _) as [l'|] eqn:Hn; [|discriminate].
  intros [= <- _].
  pose proof (bound_strategy _ _ _ Hn) as Hs.
  rewrite Habsent in Hs. unfold strategyOf in Hs. now rewrite Hs.
Qed.

Lemma default_backupStrategy_witness :
  exists l o,
    boundOptions (E := Sample.env) ["server"; "-M"] = inr (l, o) /\
    strategy (backup (config l)) = 1%Z.
Proof.
  do 2 eexists. split; [reflexivity|].
  refine (proj2 (default_backupStrategy
                   Sample.env ["server"; "-M"] _ _ _ eq_refl eq_refl eq_refl)).
Defined.

(** ** Decimal numerals *)

Lemma digit_of_digit_char (d : N) :
  (d < 10)%N -> digit_of_ascii (digit_char d) = Some d.
Proof.
  intros H.
  assert (Hd : In d [0; 1; 2; 3; 4; 5; 6; 7; 8; 9]%N).
  { cbn. lia. }
  cbn in Hd.
  repeat (destruct Hd as [<-|Hd]; [reflexivity|]). contradiction.
Qed.

(** Printing puts digits in front of [rest]; reading them back shifts the
    accumulator by as many decimal places and adds the number. *)
Lemma parse_printDigits (fuel : nat) (n : N) :
  (n < 10 ^ N.of_nat fuel)%N ->
  exists k : N, forall rest a,
    parseDigits (printDigits fuel n rest) a = parseDigits rest (a * 10 ^ k + n)%N.
Proof.
  revert n. induction fuel as [|fuel IH]; intros n Hn.
  - exists 0%N. intros rest a. cbn in *. f_equal; lia.
  - cbn [printDigits]. destruct (N.ltb_spec n 10) as [Hlt|Hge].
    + exists 1%N. intros rest a. cbn [parseDigits].
      rewrite N.mod_small, digit_of_digit_char by assumption.
      f_equal; lia.
    + destruct (IH (n / 10)%N) as [k Hk].
      { apply N.Div0.div_lt_upper_bound.
        rewrite Nat2N.inj_succ, N.pow_succ_r' in Hn. lia. }
      exists (N.succ k). intros rest a. rewrite Hk. cbn [parseDigits].
      rewrite digit_of_digit_char by (apply N.mod_lt; lia).
      f_equal; rewrite N.pow_succ_r'.
      pose proof (N.div_mod n 10). lia.
Qed.

Lemma printDigits_nonempty (fuel : nat) (n : N) (acc : string) :
  acc <> "" -> printDigits fuel n acc <> "".
Proof.
  revert n acc. induction fuel as [|fuel IH]; intros n acc Hacc; cbn; [assumption|].
  destruct (n <? 10)%N; [discriminate|]. apply IH. discriminate.
Qed.

Lemma printUnsigned_nonempty (n : N) : printUnsigned n <> "".
Proof.
  unfold printUnsigned. cbn [printDigits].
  destruct (n <? 10)%N; [discriminate|].
  apply printDigits_nonempty. discriminate.
Qed.

Lemma size_bound (n : N) : (n < 10 ^ N.of_nat (S (N.to_nat (N.size n))))%N.
Proof.
  rewrite Nat2N.inj_succ, N2Nat.id, N.pow_succ_r'.
  assert (H2 : (n < 2 ^ N.size n)%N).
  { destruct n as [|q]; [cbn; lia | apply N.size_gt]. }
  assert (H10 : (2 ^ N.size n <= 10 ^ N.size n)%N)
    by (apply N.pow_le_mono_l; lia).
  lia.
Qed.

(** A number written in decimal is read back as itself. *)
Lemma parseUnsigned_printUnsigned (n : N) :
  parseUnsigned (printUnsigned n) = Some n.
Proof.
  unfold parseUnsigned.
  destruct (printUnsigned n) eqn:Hs; [now apply printUnsigned_nonempty in Hs|].
  rewrite <- Hs. unfold printUnsigned.
  destruct (parse_printDigits _ n (size_bound n)) as [k Hk].
  rewrite Hk. cbn. f_equal; lia.
Qed.

Lemma percentBody_append (s : string) : percentBody (s ++ "%") = Some s.
Proof.
  induction s as [|c s IH]; [reflexivity|].
  cbn [append percentBody]. rewrite IH.
  destruct s; reflexivity.
Qed.

(** A string of digits has no percent sign at its end. *)
Lemma percentBody_digits (s : string) (a v : N) :
  parseDigits s a = Some v -> percentBody s = None.
Proof.
  revert a. induction s as [|c s IH]; intros a; [reflexivity|].
  cbn [parseDigits percentBody].
  destruct (digit_of_ascii c) as [d|] eqn:Hd; [|discriminate].
  intros H. destruct s as [|c' s'].
  - destruct (Ascii.eqb_spec c "%") as [->|_]; [discriminate Hd | reflexivity].
  - now rewrite (IH _ H).
Qed.

(** ** Percentages in decimal *)

Lemma parseDigits_printUnsigned (n : N) :
  parseDigits (printUnsigned n) 0 = Some n.
Proof.
  pose proof (parseUnsigned_printUnsigned n) as H. unfold parseUnsigned in H.
  destruct (printUnsigned n); [discriminate H | exact H].
Qed.

(** A string of digits has no decimal point. *)
Lemma splitAtPoint_digits (s : string) (a v : N) :
  parseDigits s a = Some v -> splitAtPoint s = (s, None).
Proof.
  revert a. induction s as [|c s IH]; intros a; [reflexivity|].
  cbn [parseDigits splitAtPoint].
  destruct (digit_of_ascii c) as [d|] eqn:Hd; [|discriminate].
  intros H. destruct (Ascii.eqb_spec c ".") as [->|_]; [discriminate Hd|].
  now rewrite (IH _ H).
Qed.

Lemma splitAtPoint_point (s f : string) (a v : N) :
  parseDigits s a = Some v ->
  splitAtPoint (s ++ String "." f) = (s, Some f).
Proof.
  revert a. induction s as [|c s IH]; intros a; [reflexivity|].
  cbn [parseDigits splitAtPoint append].
  destruct (digit_of_ascii c) as [d|] eqn:Hd; [|discriminate].
  intros H. destruct (Ascii.eqb_spec c ".") as [->|_]; [discriminate Hd|].
  now rewrite (IH _ H).
Qed.

Lemma parse_printFixed (k : nat) (n : N) (rest : string) (a : N) :
  (n < 10 ^ N.of_nat k)%N ->
  parseDigits (printFixed k n rest) a
  = parseDigits rest (a * 10 ^ N.of_nat k + n)%N.
Proof.
  revert n rest. induction k as [|k IH]; intros n rest Hn.
  - cbn in *. f_equal; lia.
  - cbn [printFixed]. rewrite Nat2N.inj_succ, N.pow_succ_r' in *.
    rewrite IH by (apply N.Div0.div_lt_upper_bound; lia).
    cbn [parseDigits].
    rewrite digit_of_digit_char by (apply N.mod_lt; lia).
    f_equal. pose proof (N.div_mod' n 10) as Hdm.
    revert Hdm. generalize (n / 10)%N as q, (n mod 10)%N as r.
    intros q r Hdm. lia.
Qed.

Lemma length_printFixed (k : nat) (n : N) (acc : string) :
  String.length (printFixed k n acc) = (k + String.length acc)%nat.
Proof.
  revert n acc. induction k as [|k IH]; intros n acc; [reflexivity|].
  cbn [printFixed]. rewrite IH. cbn. lia.
Qed.

(** A percentage written in decimal is read back as itself. *)
Lemma parsePercentage_printPercentage (p : Percentage) :
  parsePercentage (printPercentage p) = Some p.
Proof.
  destruct p as [m [|k]]; unfold parsePercentage, printPercentage;
    cbn [places mantissa].
  - rewrite (splitAtPoint_digits _ _ _ (parseDigits_printUnsigned m)).
    now rewrite parseUnsigned_printUnsigned.
  - set (unit := (10 ^ N.of_nat (S k))%N).
    assert (Hunit : (0 < unit)%N) by (apply N.neq_0_lt_0, N.pow_nonzero; lia).
    cbn [append].
    rewrite (splitAtPoint_point _ _ _ _ (parseDigits_printUnsigned (m / unit))).
    rewrite parseUnsigned_printUnsigned.
    pose proof (length_printFixed (S k) (m mod unit) "") as Hlen.
    cbn [String.length] in Hlen. rewrite Nat.add_0_r in Hlen.
    destruct (printFixed (S k) (m mod unit) "") as [|c f] eqn:Hf;
      [discriminate Hlen|].
    cbv iota. rewrite Hlen, <- Hf, parse_printFixed by (apply N.mod_lt; lia).
    cbn [parseDigits option_map]. do 2 f_equal. fold unit.
    pose proof (N.div_mod' m unit) as Hdm. lia.
Qed.

(** ** Memory sizes *)

Lemma resolve_percentage (p : Percentage) (T : N) :
  (0 < mantissa p <= percentScale p)%N ->
  resolveMemorySize (printPercentage p ++ "%") T = inr (roundPercentOf T p).
Proof.
  intros [Hlo Hhi]. unfold resolveMemorySize.
  rewrite percentBody_append, parsePercentage_printPercentage.
  unfold validPercent.
  apply N.ltb_lt in Hlo. apply N.leb_le in Hhi. now rewrite Hlo, Hhi.
Qed.

Lemma resolve_absolute (n T : N) :
  resolveMemorySize (printUnsigned n) T = inr (n * 1048576)%N.
Proof.
  unfold resolveMemorySize.
  pose proof (parseUnsigned_printUnsigned n) as Hp.
  assert (Hb : percentBody (printUnsigned n) = None).
  { unfold parseUnsigned in Hp.
    destruct (printUnsigned n) eqn:Hs; [discriminate|].
    now apply (percentBody_digits _ 0%N n). }
  now rewrite Hb, Hp.
Qed.

Lemma resolve_directive (d : Directive) (T : N) :
  validDirective d ->
  resolveMemorySize (directiveString d) T = inr (directiveBytes T d).
Proof.
  destruct d as [p|n]; cbn [validDirective directiveString directiveBytes].
  - apply resolve_percentage.
  - intros _. apply resolve_absolute.
Qed.

(** The percentage is rounded to the nearest byte. *)
Lemma roundPercentOf_nearest (T : N) (p : Percentage) :
  (2 * percentScale p * roundPercentOf T p
   <= 2 * (T * mantissa p) + percentScale p
   < 2 * percentScale p * roundPercentOf T p + 2 * percentScale p)%N.
Proof.
  unfold roundPercentOf.
  assert (Hs : (0 < percentScale p)%N).
  { unfold percentScale.
    assert (10 ^ N.of_nat (places p) <> 0)%N by (apply N.pow_nonzero; lia). lia. }
  revert Hs. generalize (percentScale p) as D, (T * mantissa p)%N as a.
  intros D a Hs.
  pose proof (N.div_mod' (2 * a + D) (2 * D)) as Hdm.
  pose proof (N.mod_lt (2 * a + D) (2 * D) ltac:(lia)) as Hlt.
  revert Hdm Hlt.
  generalize ((2 * a + D) / (2 * D))%N as q, ((2 * a + D) mod (2 * D))%N as r.
  intros q r Hdm Hlt. nia.
Qed.

(** For a whole percentage the rounding is the one of [roundPercent]. *)
Lemma roundPercentOf_whole (T p : N) :
  roundPercentOf T (mkPercentage p 0) = roundPercent T p.
Proof.
  unfold roundPercentOf, roundPercent, percentScale. cbn [mantissa places].
  change (100 * 10 ^ N.of_nat 0)%N with 100%N.
  replace (2 * (T * p) + 100)%N with (2 * (T * p + 50))%N by lia.
  apply N.Div0.div_mul_cancel_l. lia.
Qed.

Lemma resolve_percent (p T : N) :
  (0 < p <= 100)%N ->
  resolveMemorySize (percentDirective p) T = inr (roundPercent T p).
Proof.
  intros Hp. rewrite <- roundPercentOf_whole.
  apply (resolve_percentage (mkPercentage p 0)). exact Hp.
Qed.

Lemma roundPercent_nearest (T p : N) :
  (100 * roundPercent T p <= T * p + 50 < 100 * roundPercent T p + 100)%N.
Proof.
  unfold roundPercent. generalize (T * p + 50)%N as x. intros x.
  pose proof (N.div_mod' x 100) as Hdm.
  pose proof (N.mod_lt x 100 ltac:(lia)) as Hlt.
  revert Hdm Hlt. generalize (x / 100)%N as q, (x mod 100)%N as r.
  intros q r Hdm Hlt. lia.
Qed.

Lemma specResolveSizes_inr (T : N) (m h : string) (log hash : N) :
  specResolveSizes T m h = inr (log, hash) <->
  resolveMemorySize m T = inr log /\ resolveMemorySize h T = inr hash.
Proof.
  unfold specResolveSizes.
  destruct (resolveMemorySize m T) as [[]|x], (resolveMemorySize h T) as [[]|y];
    split; try discriminate; try (intros [? ?]; discriminate).
  - now intros [= -> ->].
  - now intros [[= ->] [= ->]].
Qed.

(** C5: on a host of [T] bytes whose sizing is the resolver, a valid
    directive for the log and one for the hash table, each a percentage
    "p%" with [0 < p <= 100] or a bare integer of megabytes, resolve to
    [round(T * p / 100)] bytes, the nearest integer, and to [n * 1048576]
    bytes whatever [T] is; [setLogAndHashTableSize] stores the one as the
    log size and the other as the hash table size of the configuration,
    each from its own directive, and the server of a run with a master
    role whose transport binds is started with these two sizes. *)
Theorem size_directives_resolve
        (E : Collaborators) (T : N) (forLog forHash : Directive) :
  (forall a b, resolveSizes a b = specResolveSizes T a b) ->
  validDirective forLog ->
  validDirective forHash ->
  (forall T', resolveMemorySize (directiveString forLog) T'
              = inr (directiveBytes T' forLog)) /\
  (forall T', resolveMemorySize (directiveString forHash) T'
              = inr (directiveBytes T' forHash)) /\
  (forall p,
      (2 * percentScale p * directiveBytes T (Percent p)
       <= 2 * (T * mantissa p) + percentScale p
       < 2 * percentScale p * directiveBytes T (Percent p) + 2 * percentScale p)%N) /\
  (forall p, directiveBytes T (Percent (mkPercentage p 0)) = ((T * p + 50) / 100)%N) /\
  (forall n T', directiveBytes T' (Megabytes n) = (n * 1048576)%N) /\
  (forall c w,
      setLogAndHashTableSize (directiveString forLog) (directiveString forHash) c w
      = (mkWorld (transportManager w)
                 (trace w ++ [EvSetLogAndHashTableSize (directiveString forLog)
                                                       (directiveString forHash)]),
         inr (set_master (set_sizes (directiveBytes T forLog)
                                    (directiveBytes T forHash) (master c)) c))) /\
  (forall argv l o tm,
      boundOptions argv = inr (l, o) ->
      backupOnly l = false ->
      tm_initialize (getLocalLocator o)
                    (tm_setTimeout (getTransportTimeout o) newTransportManager)
      = (tm, None) ->
      masterTotalMemory l = directiveString forLog ->
      hashTableMemory l = directiveString forHash ->
      exists c,
        In (EvServerRun c) (events (main argv)) /\
        logBytes (master c) = directiveBytes T forLog /\
        hashTableBytes (master c) = directiveBytes T forHash).
Proof.
  intros Hsizing Hlog Hhash.
  pose proof (resolve_directive forLog T Hlog) as Rlog.
  pose proof (resolve_directive forHash T Hhash) as Rhash.
  assert (Hboth : resolveSizes (directiveString forLog) (directiveString forHash)
                  = inr (directiveBytes T forLog, directiveBytes T forHash)).
  { rewrite Hsizing. now apply specResolveSizes_inr. }
  split; [intros T'; now apply resolve_directive|].
  split; [intros T'; now apply resolve_directive|].
  split; [intros p; apply roundPercentOf_nearest|].
  split; [intros p; apply roundPercentOf_whole|].
  split; [reflexivity|].
  split.
  - intros c w. unfold setLogAndHashTableSize, bind, emit, ret.
    now rewrite Hboth.
  - intros argv l o tm Hbound HB Hinit Hm Hh. unfold boundOptions in Hbound.
    unfold_main. rewrite Hbound. cbn [fst snd]. rewrite HB, andb_false_r, Hm, Hh.
    destruct INFINIBAND; cbn [fst snd transportManager trace];
      rewrite Hinit; cbn [fst snd transportManager trace negb];
      rewrite Hboth; main_cases;
      eexists; (split; [cbn; tauto | split; reflexivity]).
Qed.

Lemma size_directives_resolve_witness :
  exists c,
    In (EvServerRun c)
       (events (main (E := Sample.env)
                     ["server"; "-t"; "2048"; "-h"; "12.5%"])) /\
    logBytes (master c) = (2048 * 1048576)%N /\
    hashTableBytes (master c) = 1073741824%N.
Proof.
  pose proof (size_directives_resolve
                Sample.env Sample.totalSystemMemory
                (Megabytes 2048) (Percent (mkPercentage 125 1))
                (fun a b => eq_refl) I ltac:(cbn; lia))
    as (_ & _ & _ & _ & _ & _ & Hrun).
  exact (Hrun ["server"; "-t"; "2048"; "-h"; "12.5%"]
              (mkLocals (mkServerConfig [] "" "" UNNAMED true
                           (mkMasterConfig false 0 0 0)
                           (mkBackupConfig false 1 "/var/tmp/backup.log" 512))
                        "2048" "12.5%" false false)
              (mkCommonOptions "" "" 0) [""]
              eq_refl eq_refl eq_refl eq_refl eq_refl).
Defined.

(** A server that is started with a master role has the two byte counts
    the resolver gave for the bound directives. *)
Lemma server_config_sizes (E : Collaborators) (argv : list string) (c : ServerConfig) :
  In (EvServerRun c) (events (main argv)) ->
  exists l o,
    boundOptions argv = inr (l, o) /\
    (backupOnly l = false ->
     resolveSizes (masterTotalMemory l) (hashTableMemory l)
     = inr (logBytes (master c), hashTableBytes (master c))).
Proof.
  unfold boundOptions. unfold_main. main_cases;
    cbn [In]; intros H;
    repeat (destruct H as [H|H]; [try discriminate H|]); try contradiction;
    injection H as <-; do 2 eexists; (split; [reflexivity|]);
    rewrite ?HB; intros; (discriminate || assumption).
Qed.

(** C6: the directives "0%", "101%", "-5" and "abc" are invalid size
    specifications whatever the total is; a run that sizes the memory with
    one of them, in either position, exits with code 1 and starts no
    server. *)
Theorem invalid_size_specs_fatal
        (E : Collaborators) (T : N) (argv : list string) (d other : string) :
  In d ["0%"; "101%"; "-5"; "abc"] ->
  resolveMemorySize d T = inl InvalidSizeSpec /\
  (In (EvSetLogAndHashTableSize d other)
      (events (main (E := withSpecSizing E T) argv)) \/
   In (EvSetLogAndHashTableSize other d)
      (events (main (E := withSpecSizing E T) argv)) ->
   exitCode (main (E := withSpecSizing E T) argv) = Some 1%Z /\
   existsb isServerRun (events (main (E := withSpecSizing E T) argv)) = false).
Proof.
  intros Hd.
  assert (Hbad : resolveMemorySize d T = inl InvalidSizeSpec).
  { cbn in Hd. repeat (destruct Hd as [<-|Hd]; [reflexivity|]). contradiction. }
  split; [exact Hbad|].
  unfold_main. main_cases;
    cbn [In]; intros [H|H];
    repeat (destruct H as [H|H]; [try discriminate H|]); try contradiction;
    try (split; reflexivity);
    injection H as <- <- || injection H as -> ->;
    cbn [resolveSizes withSpecSizing] in Hsizes;
    apply specResolveSizes_inr in Hsizes; destruct Hsizes as [H1 H2];
    congruence.
Qed.

Lemma invalid_size_specs_fatal_witness :
  exitCode (main (E := withSpecSizing Sample.env Sample.totalSystemMemory)
                 ["server"; "-t"; "0%"]) = Some 1%Z.
Proof.
  refine (proj1 (proj2 (invalid_size_specs_fatal
                          Sample.env Sample.totalSystemMemory
                          ["server"; "-t"; "0%"] "0%" "10%" _) _)).
  - cbn. tauto.
  - left. cbn. tauto.
Defined.

(** ** The cluster name *)

(** C9: [__unnamed__] matches no cluster name, on either side and not even
    itself; a backup started under it keeps none of the stored replicas, and
    the replicas it tags are kept by no later backup. *)
Theorem unnamed_matches_nothing (t : string) :
  clusterNameMatches UNNAMED t = false /\
  clusterNameMatches t UNNAMED = false /\
  clusterNameMatches UNNAMED UNNAMED = false /\
  (forall stored, reusableReplicas UNNAMED stored = []) /\
  (forall ids, reusableReplicas t (map (mkReplica UNNAMED) ids) = []).
Proof.
  assert (Hl : forall s, clusterNameMatches UNNAMED s = false).
  { intros s. unfold clusterNameMatches. now rewrite String.eqb_refl. }
  assert (Hr : forall s, clusterNameMatches s UNNAMED = false).
  { intros s. unfold clusterNameMatches.
    rewrite (String.eqb_refl UNNAMED). cbn. now rewrite andb_false_r. }
  repeat split; auto.
  - intros stored. unfold reusableReplicas.
    induction stored as [|r stored IH]; [reflexivity|].
    cbn [filter]. now rewrite Hr.
  - intros ids. unfold reusableReplicas.
    induction ids as [|i ids IH]; [reflexivity|].
    cbn [map filter replicaClusterName]. now rewrite Hl.
Qed.

(** Names other than the special one match exactly themselves. *)
Lemma named_matches_itself (a b : string) :
  a <> UNNAMED -> b <> UNNAMED ->
  clusterNameMatches a b = true <-> a = b.
Proof.
  intros Ha Hb. unfold clusterNameMatches.
  apply String.eqb_neq in Ha, Hb. rewrite Ha, Hb. cbn.
  apply String.eqb_eq.
Qed.

(** * Further properties of [main] *)

(** ** How a run ends *)


(** When the option parser throws, the line of the [catch] clause is the
    only event of the run: the command line is not logged, the transport
    manager is not touched, and the exit code is 1. *)
Theorem parser_error_logs_only_the_handler_line
        (E : Collaborators) (argv : list string) (t : Thrown) :
  boundOptions argv = inl t ->
  events (main argv)
  = [handlerLine (tm_getListeningLocatorsString newTransportManager) t] /\
  exitCode (main argv) = Some 1%Z /\
  finalTransport (main argv) = newTransportManager.
Proof.
  intros Hbound. unfold boundOptions in Hbound.
  unfold_main. rewrite Hbound. destruct t; repeat split.
Qed.

Lemma parser_error_logs_only_the_handler_line_witness :
  events (main (E := Sample.env) ["server"; "--bogus"])
  = [EvLog ERROR "Fatal error in server at %s: %s"
           [ArgStr ""; ArgStr "unknown option"]].
Proof.
  exact (proj1 (parser_error_logs_only_the_handler_line
                  Sample.env ["server"; "--bogus"]
                  (ThrowStdException "unknown option") eq_refl)).
Defined.

(** ** The calls into the transport layer *)

(** Once the options are bound and the role flags do not conflict, the
    run goes on, right after the command line, with the calls into the
    transport layer: the Infiniband name if compiled in, the timeout and
    then the binding, each with the value of the shared options as it
    is. *)
Theorem transport_calls_forward_the_options
        (E : Collaborators) (argv : list string) (l : Locals) (o : CommonOptions) :
  boundOptions argv = inr (l, o) ->
  masterOnly l && backupOnly l = false ->
  exists rest,
    events (main argv)
    = EvLog NOTICE "Command line: %s" [ArgStr (String.concat " " argv)]
      :: bindingCalls INFINIBAND o ++ rest /\
    existsb isTransportCall rest = false.
Proof.
  intros Hbound Hflags. unfold boundOptions in Hbound.
  unfold_main. rewrite Hbound, commandLineArgs_concat. cbn [fst snd].
  rewrite Hflags. unfold bindingCalls.
  main_cases; eexists; split; reflexivity.
Qed.

Lemma transport_calls_forward_the_options_witness :
  exists rest,
    events (main (E := Sample.env) ["server"; "-L"; "tcp:host=h,port=1"])
    = EvLog NOTICE "Command line: %s" [ArgStr "server -L tcp:host=h,port=1"]
      :: EvSetTimeout 0 :: EvInitialize "tcp:host=h,port=1" :: rest.
Proof.
  destruct (transport_calls_forward_the_options
              Sample.env ["server"; "-L"; "tcp:host=h,port=1"]
              (mkLocals (mkServerConfig [] "" "" UNNAMED true
                           (mkMasterConfig false 0 0 0)
                           (mkBackupConfig false 1 "/var/tmp/backup.log" 512))
                        "10%" "10%" false false)
              (mkCommonOptions "tcp:host=h,port=1" "" 0) eq_refl eq_refl)
    as [rest [Hev _]].
  exists rest. exact Hev.
Defined.

(** When the transport manager fails to bind, the run ends there: nothing
    is logged about listening, no memory is sized, no server is started;
    the [catch] clause logs the locators of the transport manager as the
    failed call left it, and the exit code is 1. *)
Theorem bind_failure_ends_the_run
        (E : Collaborators) (argv : list string) (l : Locals) (o : CommonOptions)
        (tm : TransportManager) (t : Thrown) :
  boundOptions argv = inr (l, o) ->
  masterOnly l && backupOnly l = false ->
  tm_initialize (getLocalLocator o)
                (tm_setTimeout (getTransportTimeout o) newTransportManager)
  = (tm, Some t) ->
  events (main argv)
  = EvLog NOTICE "Command line: %s" [ArgStr (String.concat " " argv)]
    :: bindingCalls INFINIBAND o
    ++ [handlerLine (tm_getListeningLocatorsString tm) t] /\
  exitCode (main argv) = Some 1%Z /\
  finalTransport (main argv) = tm.
Proof.
  intros Hbound Hflags Hinit. unfold boundOptions in Hbound.
  unfold_main. rewrite Hbound, commandLineArgs_concat. cbn [fst snd].
  rewrite Hflags. unfold bindingCalls.
  destruct INFINIBAND; cbn [fst snd transportManager trace];
    rewrite Hinit; destruct t; repeat split.
Qed.

Lemma bind_failure_ends_the_run_witness :
  exitCode (main (E := Sample.env) ["server"; "-L"; "bogus:"]) = Some 1%Z /\
  List.length (events (main (E := Sample.env) ["server"; "-L"; "bogus:"])) = 4%nat.
Proof.
  pose proof (bind_failure_ends_the_run
                Sample.env ["server"; "-L"; "bogus:"]
                (mkLocals (mkServerConfig [] "" "" UNNAMED true
                             (mkMasterConfig false 0 0 0)
                             (mkBackupConfig false 1 "/var/tmp/backup.log" 512))
                          "10%" "10%" false false)
                (mkCommonOptions "bogus:" "" 0) []
                (ThrowException "No transport found for this service locator")
                eq_refl eq_refl eq_refl) as (Hev & Hexit & _).
  split; [exact Hexit | rewrite Hev; reflexivity].
Defined.

(** When sizing the memory throws, after the transport was bound, no
    server is started and the exit code is 1; the transport manager stays
    bound, and the [catch] clause logs the locators it listens on. *)
Theorem sizing_failure_after_binding
        (E : Collaborators) (argv : list string) (l : Locals) (o : CommonOptions)
        (tm : TransportManager) (t : Thrown) :
  boundOptions argv = inr (l, o) ->
  backupOnly l = false ->
  tm_initialize (getLocalLocator o)
                (tm_setTimeout (getTransportTimeout o) newTransportManager)
  = (tm, None) ->
  resolveSizes (masterTotalMemory l) (hashTableMemory l) = inl t ->
  exitCode (main argv) = Some 1%Z /\
  existsb isServerRun (events (main argv)) = false /\
  finalTransport (main argv) = tm /\
  lastEvent (events (main argv))
  = Some (handlerLine (tm_getListeningLocatorsString tm) t).
Proof.
  intros Hbound HB Hinit Hsizes. unfold boundOptions in Hbound.
  unfold_main. rewrite Hbound. cbn [fst snd]. rewrite HB, andb_false_r.
  destruct INFINIBAND; cbn [fst snd transportManager trace];
    rewrite Hinit; cbn [fst snd transportManager trace negb];
    rewrite Hsizes; destruct t; repeat split.
Qed.

Lemma sizing_failure_after_binding_witness :
  lastEvent (events (main (E := Sample.env)
                          ["server"; "-t"; "abc"; "-L"; "tcp:host=h,port=1"]))
  = Some (EvLog ERROR "Fatal error in server at %s: %s"
                [ArgStr "tcp:host=h,port=1"; ArgStr "InvalidSizeSpec"]).
Proof.
  exact (proj2 (proj2 (proj2
    (sizing_failure_after_binding
       Sample.env ["server"; "-t"; "abc"; "-L"; "tcp:host=h,port=1"]
       (mkLocals (mkServerConfig [] "" "" UNNAMED true
                    (mkMasterConfig false 0 0 0)
                    (mkBackupConfig false 1 "/var/tmp/backup.log" 512))
                 "abc" "10%" false false)
       (mkCommonOptions "tcp:host=h,port=1" "" 0) ["tcp:host=h,port=1"]
       (ThrowException "InvalidSizeSpec")
       eq_refl eq_refl eq_refl eq_refl)))).
Defined.

(** ** The start of the server *)

(** A server is started at most once in a run, and never before the
    transport was bound and the line about listening was logged; with a
    master role, never before the memory was sized. *)
Theorem server_starts_last (E : Collaborators) (argv : list string) :
  (List.length (filter isServerRun (events (main argv))) <= 1)%nat /\
  precededBy isBinding isServerRun (events (main argv)) /\
  precededBy isListeningLog isServerRun (events (main argv)) /\
  (forall l o,
      boundOptions argv = inr (l, o) -> backupOnly l = false ->
      precededBy isSizing isServerRun (events (main argv))).
Proof.
  unfold boundOptions. unfold_main. main_cases;
    (split; [cbn; lia|]);
    (split; [apply precededByb_sound; reflexivity|]);
    (split; [apply precededByb_sound; reflexivity|]);
    intros l' o' Heq HB'; try discriminate Heq;
    injection Heq as <- <-;
    first [congruence | apply precededByb_sound; reflexivity].
Qed.

(** The configuration a server is started with keeps what the options
    stored: [main] itself only writes the services, the two locators and,
    through the sizing, the two byte counts; the coordinator locator is the
    one of the shared options. *)
Theorem started_config_keeps_bound_options
        (E : Collaborators) (argv : list string) (c : ServerConfig) :
  In (EvServerRun c) (events (main argv)) ->
  exists l o,
    boundOptions argv = inr (l, o) /\
    coordinatorLocator c = getCoordinatorLocator o /\
    clusterName c = clusterName (config l) /\
    detectFailures c = detectFailures (config l) /\
    backup c = backup (config l) /\
    disableLogCleaner (master c) = disableLogCleaner (master (config l)) /\
    numReplicas (master c) = numReplicas (master (config l)).
Proof.
  unfold boundOptions. unfold_main. main_cases;
    cbn [In]; intros H;
    repeat (destruct H as [H|H]; [try discriminate H|]); try contradiction;
    injection H as <-; do 2 eexists; (split; [reflexivity|]);
    repeat split.
Qed.

Lemma started_config_keeps_bound_options_witness :
  exists c,
    In (EvServerRun c)
       (events (main (E := Sample.env) ["server"; "-C"; "tcp:host=c,port=2"; "-r"; "3"])) /\
    coordinatorLocator c = "tcp:host=c,port=2" /\
    numReplicas (master c) = 3%N.
Proof.
  eexists. split; [cbn; do 6 right; left; reflexivity|].
  match goal with
  | |- coordinatorLocator ?c = _ /\ _ =>
      destruct (started_config_keeps_bound_options
                  Sample.env
                  ["server"; "-C"; "tcp:host=c,port=2"; "-r"; "3"] c)
        as (l & o & Hbound & Hc & _ & _ & _ & _ & Hr)
  end.
  - cbn. do 6 right. left. reflexivity.
  - vm_compute in Hbound. injection Hbound as <- <-.
    split; [exact Hc | exact Hr].
Defined.

(** The services of a started server have no duplicates, always include
    the membership and the ping service and at least one of master and
    backup; the master service is among them exactly when the run sized
    the memory. *)
Theorem started_services_invariant
        (E : Collaborators) (argv : list string) (c : ServerConfig) :
  In (EvServerRun c) (events (main argv)) ->
  NoDup (services c) /\
  In MEMBERSHIP_SERVICE (services c) /\
  In PING_SERVICE (services c) /\
  (In MASTER_SERVICE (services c) \/ In BACKUP_SERVICE (services c)) /\
  (In MASTER_SERVICE (services c) <->
   existsb isSizing (events (main argv)) = true).
Proof.
  unfold_main. main_cases;
    cbn [In]; intros H;
    repeat (destruct H as [H|H]; [try discriminate H|]); try contradiction;
    injection H as <-; cbn;
    (split; [repeat constructor; cbn; intuition discriminate|]);
    intuition discriminate.
Qed.

Lemma started_services_invariant_witness :
  exists c,
    In (EvServerRun c) (events (main (E := Sample.env) ["server"; "-B"])) /\
    ~ In MASTER_SERVICE (services c).
Proof.
  eexists. split; [cbn; do 4 right; left; reflexivity|].
  match goal with
  | |- ~ In _ (services ?c) =>
      pose proof (started_services_invariant Sample.env ["server"; "-B"] c)
        as H
  end.
  intros Hin.
  destruct H as (_ & _ & _ & _ & Hiff); [cbn; do 4 right; left; reflexivity|].
  apply Hiff in Hin. vm_compute in Hin. discriminate Hin.
Defined.

(** With a master role and the transport bound, the run logs the line
    about listening, then the number of replicas as the options bound it,
    then sizes the memory from the two directives, the total first; it does
    so once. *)
Theorem master_role_sizes_once
        (E : Collaborators) (argv : list string) (l : Locals) (o : CommonOptions)
        (tm : TransportManager) :
  boundOptions argv = inr (l, o) ->
  backupOnly l = false ->
  tm_initialize (getLocalLocator o)
                (tm_setTimeout (getTransportTimeout o) newTransportManager)
  = (tm, None) ->
  exists post,
    events (main argv)
    = EvLog NOTICE "Command line: %s" [ArgStr (String.concat " " argv)]
      :: bindingCalls INFINIBAND o
      ++ [EvLog NOTICE "%s: Listening on %s"
                [ArgStr (services_toString (resolveServices (masterOnly l) false));
                 ArgStr (tm_getListeningLocatorsString tm)];
          EvLog NOTICE "Using %u backups"
                [ArgUint (numReplicas (master (config l)))];
          EvSetLogAndHashTableSize (masterTotalMemory l) (hashTableMemory l)]
      ++ post /\
    existsb isSizing post = false.
Proof.
  intros Hbound HB Hinit. unfold boundOptions in Hbound.
  unfold_main. rewrite Hbound, commandLineArgs_concat. cbn [fst snd].
  rewrite HB, andb_false_r. unfold bindingCalls.
  destruct INFINIBAND; cbn [fst snd transportManager trace];
    rewrite Hinit; main_cases; eexists; split; reflexivity.
Qed.

Lemma master_role_sizes_once_witness :
  In (EvSetLogAndHashTableSize "2048" "5%")
     (events (main (E := Sample.env) ["server"; "-h"; "5%"; "-t"; "2048"])).
Proof.
  destruct (master_role_sizes_once
              Sample.env ["server"; "-h"; "5%"; "-t"; "2048"]
              (mkLocals (mkServerConfig [] "" "" UNNAMED true
                           (mkMasterConfig false 0 0 0)
                           (mkBackupConfig false 1 "/var/tmp/backup.log" 512))
                        "2048" "5%" false false)
              (mkCommonOptions "" "" 0) [""] eq_refl eq_refl eq_refl)
    as [post [Hev _]].
  rewrite Hev. cbn. tauto.
Defined.

(** ** The option table, option by option *)

Lemma notifyAll_split_from {A : Type} (proj : Locals -> A) vm before o after l l' :
  Forall (preserves proj) before ->
  Forall (preserves proj) after ->
  notifyAll vm (before ++ o :: after) l = Some l' ->
  exists l1 l2,
    proj l1 = proj l /\ notify vm o l1 = Some l2 /\ proj l' = proj l2.
Proof.
  intros Hb Ha. revert l. induction before as [|b before IH]; intros l; cbn.
  - destruct (notify vm o l) as [l2|] eqn:H2; [|discriminate].
    intros H. exists l, l2. repeat split; [assumption|].
    now apply (notifyAll_preserves proj vm after).
  - destruct (notify vm b l) as [l1|] eqn:H1; [|discriminate].
    intros H. destruct (IH ltac:(now inversion Hb) l1 H) as (x & y & Hx & Hn & Hy).
    exists x, y. repeat split; try assumption.
    rewrite Hx. apply (notify_preserves proj vm b); [now inversion Hb | assumption].
Qed.

(** Every option of the table stores into its own variable and into no
    other: after binding, each variable holds the value given for its
    option, or the default of the table when the option is absent; the
    cluster name, which has no default, then stays as it was, and so do
    the fields of the configuration that no option names. *)
Theorem options_bind_their_own_variables (vm : VariablesMap) (l l' : Locals) :
  notifyAll vm serverOptions l = Some l' ->
  inMemory (backup (config l')) = boolGiven "backupInMemory" false vm /\
  backupOnly l' = boolGiven "backupOnly" false vm /\
  strategy (backup (config l')) = intGiven "backupStrategy" 1 vm /\
  disableLogCleaner (master (config l')) = boolGiven "disableLogCleaner" false vm /\
  file (backup (config l')) = stringGiven "file" "/var/tmp/backup.log" vm /\
  hashTableMemory l' = stringGiven "hashTableMemory" "10%" vm /\
  masterOnly l' = boolGiven "masterOnly" false vm /\
  masterTotalMemory l' = stringGiven "totalMasterMemory" "10%" vm /\
  numReplicas (master (config l')) = uintGiven "replicas" 0 vm /\
  numSegmentFrames (backup (config l')) = uintGiven "segmentFrames" 512 vm /\
  detectFailures (config l') = boolGiven "detectFailures" true vm /\
  clusterName (config l') = stringGiven "clusterName" (clusterName (config l)) vm /\
  services (config l') = services (config l) /\
  localLocator (config l') = localLocator (config l) /\
  coordinatorLocator (config l') = coordinatorLocator (config l) /\
  logBytes (master (config l')) = logBytes (master (config l)) /\
  hashTableBytes (master (config l')) = hashTableBytes (master (config l)).
Proof.
  intros H.
  repeat match goal with |- _ /\ _ => split end.
  - bound_field @notifyAll_split_from (fun x => inMemory (backup (config x))) 0%nat H.
  - bound_field @notifyAll_split_from backupOnly 1%nat H.
  - bound_field @notifyAll_split_from (fun x => strategy (backup (config x))) 2%nat H.
  - bound_field @notifyAll_split_from
                (fun x => disableLogCleaner (master (config x))) 3%nat H.
  - bound_field @notifyAll_split_from (fun x => file (backup (config x))) 4%nat H.
  - bound_field @notifyAll_split_from hashTableMemory 5%nat H.
  - bound_field @notifyAll_split_from masterOnly 6%nat H.
  - bound_field @notifyAll_split_from masterTotalMemory 7%nat H.
  - bound_field @notifyAll_split_from
                (fun x => numReplicas (master (config x))) 8%nat H.
  - bound_field @notifyAll_split_from
                (fun x => numSegmentFrames (backup (config x))) 9%nat H.
  - bound_field @notifyAll_split_from (fun x => detectFailures (config x)) 10%nat H.
  - bound_field @notifyAll_split_from (fun x => clusterName (config x)) 11%nat H.
  - apply (notifyAll_preserves (fun x => services (config x)) vm serverOptions);
      [other_options | exact H].
  - apply (notifyAll_preserves (fun x => localLocator (config x)) vm serverOptions);
      [other_options | exact H].
  - apply (notifyAll_preserves (fun x => coordinatorLocator (config x)) vm
                               serverOptions); [other_options | exact H].
  - apply (notifyAll_preserves (fun x => logBytes (master (config x))) vm
                               serverOptions); [other_options | exact H].
  - apply (notifyAll_preserves (fun x => hashTableBytes (master (config x))) vm
                               serverOptions); [other_options | exact H].
Qed.

Lemma options_bind_their_own_variables_witness :
  exists l',
    notifyAll [("hashTableMemory", VString "5%"); ("replicas", VUint32 3)]
              serverOptions
              (mkLocals Sample.defaults "" "" false false) = Some l' /\
    hashTableMemory l' = "5%" /\
    masterTotalMemory l' = "10%" /\
    numReplicas (master (config l')) = 3%N /\
    clusterName (config l') = UNNAMED.
Proof.
  eexists. split; [vm_compute; reflexivity|].
  match goal with
  | |- hashTableMemory ?x = _ /\ _ =>
      pose proof (options_bind_their_own_variables
                    [("hashTableMemory", VString "5%"); ("replicas", VUint32 3)]
                    (mkLocals Sample.defaults "" "" false false) x eq_refl)
        as (_ & _ & _ & _ & _ & Hh & _ & Ht & Hr & _ & _ & Hc & _)
  end.
  split; [exact Hh | split; [exact Ht | split; [exact Hr | exact Hc]]].
Defined.

Lemma bound_directives vm l l' :
  notifyAll vm serverOptions l = Some l' ->
  masterTotalMemory l' = stringGiven "totalMasterMemory" "10%" vm /\
  hashTableMemory l' = stringGiven "hashTableMemory" "10%" vm.
Proof.
  intros H. split.
  - bound_field @notifyAll_split_from masterTotalMemory 7%nat H.
  - bound_field @notifyAll_split_from hashTableMemory 5%nat H.
Qed.

(** Whenever a run sizes the memory, it does so with the directive given
    for [totalMasterMemory] first and the one given for [hashTableMemory]
    second, "10%" standing for either that is absent, and the [backupOnly]
    flag was not given. *)
Theorem sizing_call_takes_the_given_directives
        (E : Collaborators) (argv : list string) (cl : CommandLine) (a b : string) :
  parseCommandLine argv = inr cl ->
  In (EvSetLogAndHashTableSize a b) (events (main argv)) ->
  a = stringGiven "totalMasterMemory" "10%" (variables cl) /\
  b = stringGiven "hashTableMemory" "10%" (variables cl) /\
  flagGiven "backupOnly" (variables cl) = false.
Proof.
  intros Hparse.
  assert (Hl : forall l o,
             bindOptions serverOptions argv initialLocals = inr (l, o) ->
             masterTotalMemory l
             = stringGiven "totalMasterMemory" "10%" (variables cl) /\
             hashTableMemory l
             = stringGiven "hashTableMemory" "10%" (variables cl) /\
             backupOnly l = flagGiven "backupOnly" (variables cl)).
  { intros l o. unfold bindOptions. rewrite Hparse.
    destruct (notifyAll _ _ _) as [l'|] eqn:Hn; [|discriminate].
    intros [= <- _].
    destruct (bound_directives _ _ _ Hn) as [Ht Hh].
    repeat split; [exact Ht | exact Hh | now apply (bound_backupOnly _ _ _ Hn)]. }
  unfold_main. main_cases;
    cbn [In]; intros H;
    repeat (destruct H as [H|H]; [try discriminate H|]); try contradiction;
    injection H as <- <-;
    destruct (Hl _ _ eq_refl) as (Ht & Hh & Hb);
    rewrite <- Ht, <- Hh, <- Hb; repeat split; assumption.
Qed.

Lemma sizing_call_takes_the_given_directives_witness :
  In (EvSetLogAndHashTableSize "10%" "64")
     (events (main (E := Sample.env) ["server"; "-h"; "64"])) /\
  stringGiven "hashTableMemory" "10%" [("hashTableMemory", VString "64")] = "64".
Proof.
  split; [cbn; tauto|].
  exact (eq_sym (proj1 (proj2
    (sizing_call_takes_the_given_directives
       Sample.env ["server"; "-h"; "64"]
       (mkCommandLine [("hashTableMemory", VString "64")]
                      (mkCommonOptions "" "" 0))
       "10%" "64" eq_refl ltac:(cbn; tauto))))).
Defined.

(** ** The loop over the arguments *)

Lemma args_loop_firstn (count : nat) (rest pre : list string) (args : string) :
  (count <= List.length rest)%nat ->
  args_loop count (List.length pre) (pre ++ rest) args
  = (args ++ joinFrom (List.length pre) (firstn count rest))%string.
Proof.
  revert rest pre args. induction count as [|count IH]; intros rest pre args Hc.
  - cbn. now rewrite append_empty_r.
  - destruct rest as [|a rest]; [cbn in Hc; lia|].
    cbn [args_loop firstn joinFrom].
    rewrite app_nth2, Nat.sub_diag by auto. cbn [nth].
    replace (pre ++ a :: rest) with ((pre ++ [a]) ++ rest)
      by now rewrite <- app_assoc.
    replace (S (List.length pre)) with (List.length (pre ++ [a]))
      by (rewrite length_app; cbn; lia).
    rewrite IH by (cbn in Hc; lia).
    destruct (Nat.eqb (List.length pre) 0); cbn [append];
      now rewrite ?append_assoc.
Qed.

(** The loop run over the first [argc] arguments only, as it is for any
    [argc] within the vector, joins exactly those by single spaces: it puts
    no space before the first argument and none after the last, and for
    [argc = 0] it yields the empty string. *)
Theorem commandLineArgs_firstn (argc : nat) (argv : list string) :
  (argc <= List.length argv)%nat ->
  commandLineArgs argc argv = String.concat " " (firstn argc argv).
Proof.
  intros Hc. unfold commandLineArgs.
  pose proof (args_loop_firstn argc argv [] "" Hc) as H.
  cbn [List.length app append] in H. rewrite H.
  destruct (firstn argc argv) as [|a rest]; [reflexivity|].
  rewrite joinFrom_concat. reflexivity.
Qed.

Lemma commandLineArgs_firstn_witness :
  commandLineArgs 2 ["server"; "-B"; "-M"] = "server -B".
Proof.
  exact (commandLineArgs_firstn 2 ["server"; "-B"; "-M"] ltac:(cbn; lia)).
Defined.
